(** * The MIME part-tree decoder of gmail-mcp

    A shallow embedding of [mcp_gmail_server/utils.py], of the
    [MessagePayload] methods of [mcp_gmail_server/models.py] and of the
    bookkeeping of [get_messages_batch] of [mcp_gmail_server/gmail_client.py],
    and the properties of the body-text and attachment extraction.

    Layout: the fragment of the Python runtime the modules call (module
    [Py]), then [utils.py], then [models.py] and [gmail_client.py], then the
    theorems. *)

From Stdlib Require Import NArith ZArith Ascii String.
From stdpp Require Import gmap list.

Open Scope N_scope.

(** ** Python values

    A [str] is a sequence of Unicode code points and a [bytes] a sequence
    of octets; both are lists of numbers.  [lit] turns a literal of the
    source into a [str]. *)

Abbreviation str := (list N).
Abbreviation bytes := (list N).

Definition lit (s : string) : str := (λ a, N_of_ascii a) <$> list_ascii_of_string s.

(** Truth value of a sequence, of an optional sequence, and [a or b]. *)
Definition truthy {A} (l : list A) : bool :=
  match l with [] => false | _ => true end.

Definition opt_truthy {A} (o : option (list A)) : bool :=
  match o with Some l => truthy l | None => false end.

Definition py_or {A} (a b : option (list A)) : option (list A) :=
  if opt_truthy a then a else b.

Module Py.

(** *** [base64.urlsafe_b64decode]

    [binascii.a2b_base64] in its default, non-strict mode: characters
    outside the alphabet are skipped, a pad sequence that completes the
    current quad ends the decoding, and leftover characters of an
    incomplete quad raise [binascii.Error] (here [None]). *)

Definition a2b_table (c : N) : option N :=
  if (65 <=? c) && (c <=? 90) then Some (c - 65)
  else if (97 <=? c) && (c <=? 122) then Some (c - 71)
  else if (48 <=? c) && (c <=? 57) then Some (c + 4)
  else if c =? 43 then Some 62
  else if c =? 47 then Some 63
  else None.

Fixpoint a2b_base64 (s : bytes) (quad_pos leftchar pads : N) : option bytes :=
  match s with
  | [] => if quad_pos =? 0 then Some [] else None
  | this_ch :: rest =>
    if this_ch =? 61 then
      if (2 <=? quad_pos) && (4 <=? quad_pos + (pads + 1)) then Some []
      else a2b_base64 rest quad_pos leftchar (if 2 <=? quad_pos then pads + 1 else pads)
    else
      match a2b_table this_ch with
      | None => a2b_base64 rest quad_pos leftchar pads
      | Some v =>
        if quad_pos =? 0 then a2b_base64 rest 1 v 0
        else if quad_pos =? 1 then
          cons (N.lor (N.shiftl leftchar 2) (N.shiftr v 4))
            <$> a2b_base64 rest 2 (N.land v 15) 0
        else if quad_pos =? 2 then
          cons (N.lor (N.shiftl leftchar 4) (N.shiftr v 2))
            <$> a2b_base64 rest 3 (N.land v 3) 0
        else
          cons (N.lor (N.shiftl leftchar 6) v) <$> a2b_base64 rest 0 0 0
      end
  end.

(** [-] and [_] of the URL-safe alphabet are translated to [+] and [/]. *)
Definition urlsafe_translate (c : N) : N :=
  if c =? 45 then 43 else if c =? 95 then 47 else c.

(** A [str] argument is first encoded as ASCII, which raises on any other
    character. *)
Definition urlsafe_b64decode (s : str) : option bytes :=
  if forallb (λ c, c <? 128) s
  then a2b_base64 (urlsafe_translate <$> s) 0 0 0
  else None.

(** *** [bytes.decode("utf-8", errors="ignore")]

    CPython's decoder: an invalid start byte is dropped alone, an invalid
    continuation drops the bytes read before it, and a sequence cut short
    by the end of the input drops everything that is left. *)

Definition is_cont (b : N) : bool := (128 <=? b) && (b <? 192).

Definition cp2 (b0 b1 : N) : N := N.lor (N.shiftl (N.land b0 31) 6) (N.land b1 63).
Definition cp3 (b0 b1 b2 : N) : N :=
  N.lor (N.shiftl (N.land b0 15) 12) (N.lor (N.shiftl (N.land b1 63) 6) (N.land b2 63)).
Definition cp4 (b0 b1 b2 b3 : N) : N :=
  N.lor (N.shiftl (N.land b0 7) 18)
    (N.lor (N.shiftl (N.land b1 63) 12)
       (N.lor (N.shiftl (N.land b2 63) 6) (N.land b3 63))).

(** The second byte of a sequence: a continuation byte that neither makes
    the sequence overlong, nor a surrogate, nor larger than U+10FFFF. *)
Definition second_ok (b0 b1 : N) : bool :=
  is_cont b1
  && negb ((b0 =? 224) && (b1 <? 160)) && negb ((b0 =? 237) && (160 <=? b1))
  && negb ((b0 =? 240) && (b1 <? 144)) && negb ((b0 =? 244) && (144 <=? b1)).

Fixpoint decode_utf8_ignore (s : bytes) : str :=
  match s with
  | [] => []
  | b0 :: r0 =>
    if b0 <? 128 then b0 :: decode_utf8_ignore r0
    else if (b0 <? 194) || (245 <=? b0) then decode_utf8_ignore r0
    else if b0 <? 224 then
      match r0 with
      | [] => []
      | b1 :: r1 =>
        if is_cont b1 then cp2 b0 b1 :: decode_utf8_ignore r1
        else decode_utf8_ignore r0
      end
    else if b0 <? 240 then
      match r0 with
      | [] => []
      | b1 :: r1 =>
        if negb (second_ok b0 b1) then decode_utf8_ignore r0
        else match r1 with
          | [] => []
          | b2 :: r2 =>
            if is_cont b2 then cp3 b0 b1 b2 :: decode_utf8_ignore r2
            else decode_utf8_ignore r1
          end
      end
    else
      match r0 with
      | [] => []
      | b1 :: r1 =>
        if negb (second_ok b0 b1) then decode_utf8_ignore r0
        else match r1 with
          | [] => []
          | b2 :: r2 =>
            if negb (is_cont b2) then decode_utf8_ignore r1
            else match r2 with
              | [] => []
              | b3 :: r3 =>
                if is_cont b3 then cp4 b0 b1 b2 b3 :: decode_utf8_ignore r3
                else decode_utf8_ignore r2
              end
          end
      end
  end.

(** *** [str.strip], [str.isspace], [str.lower] *)

Definition isspace_char (c : N) : bool :=
  ((9 <=? c) && (c <=? 13)) || ((28 <=? c) && (c <=? 32)) || (c =? 133) || (c =? 160)
  || (c =? 5760) || ((8192 <=? c) && (c <=? 8202)) || (c =? 8232) || (c =? 8233)
  || (c =? 8239) || (c =? 8287) || (c =? 12288).

Fixpoint lstrip (s : str) : str :=
  match s with
  | c :: r => if isspace_char c then lstrip r else s
  | [] => []
  end.
Definition rstrip (s : str) : str := reverse (lstrip (reverse s)).
Definition strip (s : str) : str := rstrip (lstrip s).
Definition isspace (s : str) : bool := truthy s && forallb isspace_char s.

(** Lower-casing of the ASCII letters.  The results are only ever compared
    with ASCII keys that have no letter k, and no other character
    lower-cases to a string of such letters, so the characters outside
    ASCII are left as they are. *)
Definition lower_char (c : N) : N := if (65 <=? c) && (c <=? 90) then c + 32 else c.
Definition lower (s : str) : str := lower_char <$> s.

(** *** [re.search] for the two patterns of [models.py]

    The pattern is a keyword, an optional star, an equals sign and then
    either a quoted non-empty run without quotes (group 1) or a non-empty
    run without semicolons (group 2), under [re.IGNORECASE]: the letter i
    also matches U+0130 and U+0131. *)

Definition char_matches_ic (p c : N) : bool :=
  (lower_char c =? lower_char p)
  || ((lower_char p =? 105) && ((c =? 304) || (c =? 305))).

Fixpoint match_literal_ic (pat s : str) : option str :=
  match pat, s with
  | [], _ => Some s
  | p :: pat', c :: s' => if char_matches_ic p c then match_literal_ic pat' s' else None
  | _ :: _, [] => None
  end.

Fixpoint span_until (stop : N) (s : str) : str * str :=
  match s with
  | [] => ([], [])
  | c :: r =>
    if c =? stop then ([], s) else let '(a, b) := span_until stop r in (c :: a, b)
  end.

(** A match object, as its two groups. *)
Definition re_match : Type := option str * option str.

Definition match_unquoted (s : str) : option re_match :=
  let '(tok, _) := span_until 59 s in
  if truthy tok then Some (None, Some tok) else None.

Definition match_param_value (s : str) : option re_match :=
  match s with
  | c :: r =>
    if c =? 34 then
      match span_until 34 r with
      | (d :: q, _ :: _) => Some (Some (d :: q), None)
      | _ => match_unquoted s
      end
    else match_unquoted s
  | [] => match_unquoted s
  end.

Definition skip_star (s : str) : str :=
  match s with
  | c :: r => if c =? 42 then r else s
  | [] => s
  end.

Definition match_param_here (key s : str) : option re_match :=
  match match_literal_ic key s with
  | None => None
  | Some r =>
    match skip_star r with
    | c :: v => if c =? 61 then match_param_value v else None
    | [] => None
    end
  end.

Fixpoint re_search_param (key s : str) : option re_match :=
  match match_param_here key s with
  | Some m => Some m
  | None => match s with [] => None | _ :: r => re_search_param key r end
  end.

(** *** [email.header.decode_header]

    The header is cut into lines, each line into unencoded text and
    encoded words (charset, encoding, text); blank text between two
    encoded words is dropped, every word is decoded (Q or base64, a base64
    error raises, here [None]) and turned into bytes, and neighbours of
    the same charset are merged.  A header without encoded word is
    returned as it is, as a [str]. *)

Definition hex_digit (d : N) : N := if d <? 10 then 48 + d else 87 + d.
Definition nibble (c i : N) : N := hex_digit (N.land (N.shiftr c (4 * i)) 15).

(** [str.encode("raw-unicode-escape")] *)
Definition raw_unicode_escape_char (c : N) : bytes :=
  if c <? 256 then [c]
  else if c <? 65536 then [92; 117; nibble c 3; nibble c 2; nibble c 1; nibble c 0]
  else [92; 85; nibble c 7; nibble c 6; nibble c 5; nibble c 4;
        nibble c 3; nibble c 2; nibble c 1; nibble c 0].
Definition raw_unicode_escape (s : str) : bytes := s ≫= raw_unicode_escape_char.

(** An element of the result is a [str] or a [bytes]. *)
Inductive part := PStr (s : str) | PBytes (b : bytes).

(** The encoded text runs to the first question mark followed by an equals
    sign, and holds no newline. *)
Fixpoint find_word_end (s : str) : option (str * str) :=
  match s with
  | [] => None
  | c :: r =>
    match c, r with
    | 63, 61 :: r' => Some ([], r')
    | _, _ => if c =? 10 then None
              else (λ '(e, t), (c :: e, t)) <$> find_word_end r
    end
  end.

Definition is_qb (c : N) : bool := (c =? 113) || (c =? 81) || (c =? 98) || (c =? 66).

(** The encoded-word pattern [ecre] at the head of [s]: its three groups
    and what follows the match. *)
Definition match_ecre_here (s : str) : option ((str * str * str) * str) :=
  match s with
  | 61 :: 63 :: r =>
    match span_until 63 r with
    | (charset, 63 :: e :: 63 :: r2) =>
      if is_qb e
      then (λ '(enc, rest), ((charset, [e], enc), rest)) <$> find_word_end r2
      else None
    | _ => None
    end
  | _ => None
  end.

Fixpoint ecre_search (s : str) : bool :=
  match match_ecre_here s with
  | Some _ => true
  | None => match s with [] => false | _ :: r => ecre_search r end
  end.

Inductive piece := Unenc (s : str) | Enc (charset encoding encoded : str).

(** [ecre.split]: every match consumes at least one character, so the
    length of the line plus one is enough fuel. *)
Fixpoint ecre_split (fuel : nat) (s unenc : str) : list piece :=
  match fuel with
  | O => [Unenc (unenc ++ s)]
  | S fuel' =>
    match match_ecre_here s with
    | Some ((cs, e, enc), rest) =>
      Unenc unenc :: Enc cs e enc :: ecre_split fuel' rest []
    | None =>
      match s with
      | [] => [Unenc unenc]
      | c :: r => ecre_split fuel' r (unenc ++ [c])
      end
    end
  end.

Definition is_linebreak (c : N) : bool :=
  ((10 <=? c) && (c <=? 13)) || ((28 <=? c) && (c <=? 30)) || (c =? 133)
  || (c =? 8232) || (c =? 8233).

Fixpoint splitlines_from (s cur : str) : list str :=
  match s with
  | [] => if truthy cur then [cur] else []
  | c :: r =>
    if is_linebreak c then
      cur :: match c, r with
             | 13, 10 :: r' => splitlines_from r' []
             | _, _ => splitlines_from r []
             end
    else splitlines_from r (cur ++ [c])
  end.
Definition splitlines (s : str) : list str := splitlines_from s [].

(** A word: text, encoding, charset. *)
Definition word : Type := str * option str * option str.

Fixpoint pieces_words (first : bool) (ps : list piece) : list word :=
  match ps with
  | [] => []
  | Unenc u :: r =>
    let u' := if first then lstrip u else u in
    (if truthy u' then [(u', None, None)] else []) ++ pieces_words false r
  | Enc cs e enc :: r => (enc, Some (lower e), Some (lower cs)) :: pieces_words first r
  end.

Definition line_words (line : str) : list word :=
  pieces_words true (ecre_split (S (length line)) line []).

Definition is_encoded (w : option word) : bool :=
  match w with Some (_, Some e, _) => truthy e | _ => false end.
Definition is_blank (w : option word) : bool :=
  match w with Some (t, _, _) => isspace t | None => false end.

(** Word [i] is dropped when its two neighbours are encoded words and its
    text is blank. *)
Definition dropped (words : list word) (i : nat) : bool :=
  is_encoded (words !! S i) && bool_decide (1 ≤ i)%nat
  && is_encoded (words !! pred i) && is_blank (words !! i).

Definition drop_blanks (words : list word) : list word :=
  imap (λ i w, if dropped words i then [] else [w]) words ≫= id.

Definition hex_value (c : N) : option N :=
  if (48 <=? c) && (c <=? 57) then Some (c - 48)
  else if (97 <=? c) && (c <=? 102) then Some (c - 87)
  else if (65 <=? c) && (c <=? 70) then Some (c - 55)
  else None.

(** [email.quoprimime.header_decode] *)
Fixpoint header_decode_from (s : str) : str :=
  match s with
  | [] => []
  | c :: r =>
    match c, r with
    | 61, h :: l :: r' =>
      match hex_value h, hex_value l with
      | Some a, Some b => (16 * a + b) :: header_decode_from r'
      | _, _ => c :: header_decode_from r
      end
    | _, _ => c :: header_decode_from r
    end
  end.
Definition header_decode (s : str) : str :=
  header_decode_from ((λ c, if c =? 95 then 32 else c) <$> s).

(** [email.base64mime.decode] *)
Definition base64mime_decode (s : str) : option bytes :=
  if truthy s then a2b_base64 (raw_unicode_escape s) 0 0 0 else Some [].

Definition decode_word (w : word) : option (bytes * option str) :=
  let '(encoded_string, encoding, charset) := w in
  match encoding with
  | None => Some (raw_unicode_escape encoded_string, charset)
  | Some e =>
    if bool_decide (e = lit "q")
    then Some (raw_unicode_escape (header_decode encoded_string), charset)
    else if bool_decide (e = lit "b") then
      let paderr := (length encoded_string `mod` 4)%nat in
      let padded := if bool_decide (paderr = 0%nat) then encoded_string
                    else encoded_string ++ take (4 - paderr) (lit "===") in
      (λ b, (b, charset)) <$> base64mime_decode padded
    else None
  end.

Fixpoint collapse (ws : list (bytes * option str)) (last_word : bytes)
    (last_charset : option str) : list (part * option str) :=
  match ws with
  | [] => [(PBytes last_word, last_charset)]
  | (w, cs) :: r =>
    if bool_decide (cs = last_charset) then
      match last_charset with
      | None => collapse r (last_word ++ [32] ++ w) last_charset
      | Some _ => collapse r (last_word ++ w) last_charset
      end
    else (PBytes last_word, last_charset) :: collapse r w cs
  end.

(** [None] stands for a raised exception.  A header in which [ecre]
    matches always yields a word; the case of none is kept as a failure. *)
Definition decode_header (header : str) : option (list (part * option str)) :=
  if negb (ecre_search header) then Some [(PStr header, None)]
  else
    let words := drop_blanks (splitlines header ≫= line_words) in
    match mapM decode_word words with
    | None => None
    | Some [] => None
    | Some ((w, cs) :: r) => Some (collapse r w cs)
    end.

(** *** [base64.b64encode], [base64.urlsafe_b64encode] and [str.encode("utf-8")]

    The encoders with which the test-suite and the producers of the data
    build the argument of [decode_base64_text], and mail clients an
    encoded word: three octets give four characters of the standard
    alphabet, a last group of one or two octets is padded with [=]; the
    URL-safe encoder then writes [-] for [+] and [_] for [/].  A code
    point gives one to four octets, and a surrogate or a number above
    U+10FFFF raises (here [None]). *)

Definition b2a_table (v : N) : N :=
  if v <? 26 then 65 + v
  else if v <? 52 then 71 + v
  else if v <? 62 then v - 4
  else if v =? 62 then 43
  else 47.

Fixpoint b64encode (s : bytes) : bytes :=
  match s with
  | [] => []
  | a :: [] =>
    [b2a_table (N.shiftr a 2); b2a_table (N.shiftl (N.land a 3) 4); 61; 61]
  | a :: b :: [] =>
    [b2a_table (N.shiftr a 2);
     b2a_table (N.lor (N.shiftl (N.land a 3) 4) (N.shiftr b 4));
     b2a_table (N.shiftl (N.land b 15) 2); 61]
  | a :: b :: c :: rest =>
    b2a_table (N.shiftr a 2)
    :: b2a_table (N.lor (N.shiftl (N.land a 3) 4) (N.shiftr b 4))
    :: b2a_table (N.lor (N.shiftl (N.land b 15) 2) (N.shiftr c 6))
    :: b2a_table (N.land c 63)
    :: b64encode rest
  end.

Definition urlsafe_encode_translate (c : N) : N :=
  if c =? 43 then 45 else if c =? 47 then 95 else c.

Definition urlsafe_b64encode (s : bytes) : bytes :=
  urlsafe_encode_translate <$> b64encode s.

Definition utf8_encode_char (c : N) : option bytes :=
  if c <? 128 then Some [c]
  else if c <? 2048 then Some [N.lor 192 (N.shiftr c 6); N.lor 128 (N.land c 63)]
  else if (55296 <=? c) && (c <? 57344) then None
  else if c <? 65536 then
    Some [N.lor 224 (N.shiftr c 12); N.lor 128 (N.land (N.shiftr c 6) 63);
          N.lor 128 (N.land c 63)]
  else if c <? 1114112 then
    Some [N.lor 240 (N.shiftr c 18); N.lor 128 (N.land (N.shiftr c 12) 63);
          N.lor 128 (N.land (N.shiftr c 6) 63); N.lor 128 (N.land c 63)]
  else None.

Definition utf8_encode (s : str) : option bytes :=
  (λ l : list bytes, concat l) <$> mapM utf8_encode_char s.

End Py.

(** ** [utils.py] *)

(** [decode_base64_text]: the [try] returns the decoded text, the
    [except Exception] the empty string. *)
Definition decode_base64_text (data : str) : str :=
  match Py.urlsafe_b64decode data with
  | Some b => Py.decode_utf8_ignore b
  | None => []
  end.

Section Decoder.

(** The registry of the codecs other than the one the source names
    itself: [None] for a name the interpreter has no text codec for, and
    otherwise the decoder of that name with [errors="ignore"], which
    gives [None] when it raises all the same. *)
Variable other_codecs : str → option (bytes → option str).

(** [bytes.decode(name, errors="ignore")]: the empty [bytes] object gives
    the empty string before any codec is looked up; otherwise a name
    without codec raises [LookupError] ([None]). *)
Definition bytes_decode (encoding : str) (b : bytes) : option str :=
  match b with
  | [] => Some []
  | _ :: _ =>
    if bool_decide (encoding = lit "utf-8") then Some (Py.decode_utf8_ignore b)
    else match other_codecs encoding with
         | Some codec => codec b
         | None => None
         end
  end.

(** The interpreter has no codec of that name. *)
Definition no_codec (charset : str) : Prop :=
  charset ≠ lit "utf-8" ∧ other_codecs charset = None.

(** One turn of the loop of [decode_rfc2047_filename]: the string appended
    to [decoded_strings], or [None] when [part.decode] raises. *)
Definition decode_part (p : Py.part * option str) : option str :=
  match p with
  | (Py.PBytes part, encoding) =>
    bytes_decode (if opt_truthy encoding then default [] encoding else lit "utf-8") part
  | (Py.PStr part, _) => Some part
  end.

(** [decode_rfc2047_filename]: an exception anywhere in the [try] block
    makes the function return its argument. *)
Definition decode_rfc2047_filename (filename : str) : str :=
  match Py.decode_header filename with
  | None => filename
  | Some decoded_parts =>
    match mapM decode_part decoded_parts with
    | Some decoded_strings => concat decoded_strings
    | None => filename
    end
  end.

(** ** [models.py] *)

Record Attachment := mkAttachment {
  att_attachment_id : str;
  att_file_name : str;
  att_mime_type : str;
  att_size : Z
}.

Record PayloadBody := mkPayloadBody {
  attachment_id : option str;
  data : option str;
  size : Z
}.

(** A header is a dictionary from strings to strings, [parts] and
    [headers] are optional lists. *)
Inductive MessagePayload := mkMessagePayload {
  mime_type : str;
  filename : option str;
  body : PayloadBody;
  parts : option (list MessagePayload);
  headers : option (list (gmap str str))
}.

Definition is_text_plain (self : MessagePayload) : bool :=
  bool_decide (mime_type self = lit "text/plain").

Definition is_text_html (self : MessagePayload) : bool :=
  bool_decide (mime_type self = lit "text/html").

Definition decode_body_data (self : MessagePayload) : str :=
  match data (body self) with
  | Some d => if truthy d then decode_base64_text d else []
  | None => []
  end.

(** The dictionary comprehension of [extract_filename_from_headers]: a
    later header overwrites an earlier one of the same lower-cased name. *)
Definition header_dict (hs : list (gmap str str)) : gmap str str :=
  foldl (λ d h, <[Py.lower (default [] (h !! lit "name")) := default [] (h !! lit "value")]> d)
        ∅ hs.

(** One of the two [if] blocks of [extract_filename_from_headers]: the
    value it returns, or [None] when control leaves the block. *)
Definition filename_param (key value : str) : option str :=
  if truthy value then
    match Py.re_search_param key value with
    | Some (group1, group2) =>
      match py_or group1 group2 with
      | Some filename =>
        if truthy filename then Some (decode_rfc2047_filename (Py.strip filename))
        else None
      | None => None
      end
    | None => None
    end
  else None.

Definition extract_filename_from_headers (self : MessagePayload) : option str :=
  match headers self with
  | None | Some [] => None
  | Some hs =>
    let header_dict := header_dict hs in
    let content_disposition := default [] (header_dict !! lit "content-disposition") in
    match filename_param (lit "filename") content_disposition with
    | Some r => Some r
    | None =>
      let content_type := default [] (header_dict !! lit "content-type") in
      match filename_param (lit "name") content_type with
      | Some r => Some r
      | None => None
      end
    end
  end.

Definition create_attachment (self : MessagePayload) : option Attachment :=
  match attachment_id (body self) with
  | None | Some [] => None
  | Some aid =>
    let filename0 := filename self in
    let filename1 :=
      if negb (opt_truthy filename0) && opt_truthy (headers self)
      then extract_filename_from_headers self
      else filename0 in
    match filename1 with
    | None | Some [] => None
    | Some name => Some (mkAttachment aid name (mime_type self) (size (body self)))
    end
  end.

(** [extract_body_text]: the [for] loop is the inner fixpoint, with the
    two accumulators as arguments; its [return] leaves both the loop and
    the method. *)
Fixpoint extract_body_text (self : MessagePayload) : str :=
  match parts self with
  | Some ((_ :: _) as ps) =>
    (fix loop (ps : list MessagePayload) (plain_text html_text : str) : str :=
       match ps with
       | [] => if truthy plain_text then plain_text else html_text
       | part :: rest =>
         if opt_truthy (attachment_id (body part)) then loop rest plain_text html_text
         else
           let part_text := extract_body_text part in
           if is_text_plain part then loop rest (plain_text ++ part_text) html_text
           else if is_text_html part then loop rest plain_text (html_text ++ part_text)
           else if truthy part_text then
             if negb (truthy plain_text) && negb (truthy html_text) then part_text
             else loop rest (plain_text ++ part_text) html_text
           else loop rest plain_text html_text
       end) ps [] []
  | _ =>
    if is_text_plain self || is_text_html self then decode_body_data self else []
  end.

(** [extract_attachments]: the list is extended in place, here threaded
    through the loop. *)
Fixpoint extract_attachments (self : MessagePayload) : list Attachment :=
  let attachments :=
    match create_attachment self with
    | Some attachment => [] ++ [attachment]
    | None => []
    end in
  match parts self with
  | Some ((_ :: _) as ps) =>
    (fix loop (ps : list MessagePayload) (attachments : list Attachment) :=
       match ps with
       | [] => attachments
       | sub_part :: rest => loop rest (attachments ++ extract_attachments sub_part)
       end) ps attachments
  | _ => attachments
  end.

(** ** Auxiliary definitions for the statements *)

(** The children of a node: its [parts], none when the field is absent. *)
Definition children (self : MessagePayload) : list MessagePayload :=
  default [] (parts self).

(** The loop of [extract_body_text], as a function of the children left
    and of the two accumulators. *)
Fixpoint body_loop (ps : list MessagePayload) (plain_text html_text : str) : str :=
  match ps with
  | [] => if truthy plain_text then plain_text else html_text
  | part :: rest =>
    if opt_truthy (attachment_id (body part)) then body_loop rest plain_text html_text
    else
      let part_text := extract_body_text part in
      if is_text_plain part then body_loop rest (plain_text ++ part_text) html_text
      else if is_text_html part then body_loop rest plain_text (html_text ++ part_text)
      else if truthy part_text then
        if negb (truthy plain_text) && negb (truthy html_text) then part_text
        else body_loop rest (plain_text ++ part_text) html_text
      else body_loop rest plain_text html_text
  end.

(** The nodes of a tree in depth-first, left-to-right order, a node before
    its children. *)
Fixpoint preorder (self : MessagePayload) : list MessagePayload :=
  self ::
  match parts self with
  | Some ps =>
    (fix go (ps : list MessagePayload) : list MessagePayload :=
       match ps with
       | [] => []
       | p :: rest => preorder p ++ go rest
       end) ps
  | None => []
  end.

(** A node of the given MIME type with [n] containers around it, each with
    this one child. *)
Fixpoint nest (n : nat) (mime : str) (self : MessagePayload) : MessagePayload :=
  match n with
  | O => self
  | S k => mkMessagePayload mime None (mkPayloadBody None None 0) (Some [nest k mime self]) None
  end.

(** The same node with its [attachment_id] absent. *)
Definition without_attachment_id (self : MessagePayload) : MessagePayload :=
  mkMessagePayload (mime_type self) (filename self)
    (mkPayloadBody None (data (body self)) (size (body self)))
    (parts self) (headers self).

(** *** The specification's attachment test

    The filename of a node in the words of the specification: the field
    when it is not empty, else what the header resolver finds; and the
    attachment of a node whose id is present and whose filename resolves
    to a non-empty name. *)
Definition spec_resolved_filename (node : MessagePayload) : option str :=
  match filename node with
  | Some (c :: name) => Some (c :: name)
  | _ => extract_filename_from_headers node
  end.

Definition spec_attachment (node : MessagePayload) : option Attachment :=
  match attachment_id (body node), spec_resolved_filename node with
  | Some (c :: aid), Some (d :: name) =>
    Some (mkAttachment (c :: aid) (d :: name) (mime_type node) (size (body node)))
  | _, _ => None
  end.

(** *** The specification's header resolver

    The value of the last header whose name is [key] up to case, empty
    when there is none; the captured parameter of a match; and the
    resolver over these. *)
Definition header_name (h : gmap str str) : str := default [] (h !! lit "name").
Definition header_value (h : gmap str str) : str := default [] (h !! lit "value").

Fixpoint last_header_value (key : str) (hs : list (gmap str str)) : str :=
  match hs with
  | [] => []
  | h :: rest =>
    if existsb (λ h', bool_decide (Py.lower (header_name h') = key)) rest
    then last_header_value key rest
    else if bool_decide (Py.lower (header_name h) = key) then header_value h
    else []
  end.

Definition captured (m : Py.re_match) : str :=
  match m with
  | (Some q, _) => q
  | (None, Some t) => t
  | (None, None) => []
  end.

Definition spec_parameter (key value : str) : option str :=
  (λ m, decode_rfc2047_filename (Py.strip (captured m))) <$> Py.re_search_param key value.

Definition spec_resolve (hs : list (gmap str str)) : option str :=
  match spec_parameter (lit "filename") (last_header_value (lit "content-disposition") hs) with
  | Some name => Some name
  | None => spec_parameter (lit "name") (last_header_value (lit "content-type") hs)
  end.

(** *** The specification's body-text recursion

    A pass over the children that are not skipped: the state is the two
    accumulators, or the text returned at once. *)
Inductive child_kind := KPlain | KHtml | KOther.

Definition kind_of (node : MessagePayload) : child_kind :=
  if bool_decide (mime_type node = lit "text/plain") then KPlain
  else if bool_decide (mime_type node = lit "text/html") then KHtml
  else KOther.

Inductive pass_state := Running (plain html : str) | Returned (text : str).

Definition spec_step (st : pass_state) (child : child_kind * str) : pass_state :=
  match st with
  | Returned text => Returned text
  | Running plain html =>
    match child with
    | (KPlain, child_text) => Running (plain ++ child_text) html
    | (KHtml, child_text) => Running plain (html ++ child_text)
    | (KOther, []) => Running plain html
    | (KOther, child_text) =>
      match plain, html with
      | [], [] => Returned child_text
      | _, _ => Running (plain ++ child_text) html
      end
    end
  end.

Definition spec_finish (st : pass_state) : str :=
  match st with
  | Returned text => text
  | Running plain html =>
    match plain, html with
    | _ :: _, _ => plain
    | [], _ :: _ => html
    | [], [] => []
    end
  end.

Definition skipped (child : MessagePayload) : bool :=
  opt_truthy (attachment_id (body child)).

Fixpoint spec_extract_body_text (node : MessagePayload) : str :=
  match parts node with
  | Some ((_ :: _) as cs) =>
    spec_finish
      (foldl spec_step (Running [] [])
         (omap (λ child, if skipped child then None
                         else Some (kind_of child, spec_extract_body_text child)) cs))
  | _ =>
    match kind_of node, data (body node) with
    | (KPlain | KHtml), Some d => decode_base64_text d
    | _, _ => []
    end
  end.

(** The texts a pass collects from the direct text children of one kind
    that are not skipped. *)
Definition direct_text (k : child_kind) (cs : list MessagePayload) : str :=
  concat (omap (λ child, if skipped child then None
                         else match kind_of child, k with
                              | KPlain, KPlain | KHtml, KHtml => Some (extract_body_text child)
                              | _, _ => None
                              end) cs).

(** A leaf with every optional field absent. *)
Definition bare (mime : str) : MessagePayload :=
  mkMessagePayload mime None (mkPayloadBody None None 0) None None.

(** The number of levels below a node. *)
Fixpoint depth (self : MessagePayload) : nat :=
  match parts self with
  | Some ps =>
    (fix go (ps : list MessagePayload) : nat :=
       match ps with
       | [] => O
       | p :: rest => Nat.max (S (depth p)) (go rest)
       end) ps
  | None => O
  end.

(** ** The call stack

    The interpreter bounds the depth of nested calls and raises
    [RecursionError] at a call beyond the bound; neither method catches
    it.  In the definitions of this section [frames] is the number of
    nested calls the interpreter still allows at the point where a method
    is called, and [None] is [RecursionError]. *)
Section Stack.

(** [decode_body_data] and [create_attachment] call [utils.py], the
    library and the constructor of [Attachment], to a bounded depth: with
    more than [helper_frames] frames left, a call of one of them runs as
    on an unbounded stack.  With fewer it raises [RecursionError], or
    returns what an [except] clause of [utils.py] makes of the error;
    which of them is left open, the two functions below stand for it. *)
Variable helper_frames : nat.
Variable decode_body_data_short : nat → MessagePayload → option str.
Variable create_attachment_short : nat → MessagePayload → option (option Attachment).

Definition is_text_plain_within (frames : nat) (self : MessagePayload) : option bool :=
  match frames with
  | O => None
  | S _ => Some (is_text_plain self)
  end.

Definition is_text_html_within (frames : nat) (self : MessagePayload) : option bool :=
  match frames with
  | O => None
  | S _ => Some (is_text_html self)
  end.

Definition decode_body_data_within (frames : nat) (self : MessagePayload) : option str :=
  match frames with
  | O => None
  | S _ =>
    if (helper_frames <? frames)%nat then Some (decode_body_data self)
    else decode_body_data_short frames self
  end.

Definition create_attachment_within (frames : nat) (self : MessagePayload) :
    option (option Attachment) :=
  match frames with
  | O => None
  | S _ =>
    if (helper_frames <? frames)%nat then Some (create_attachment self)
    else create_attachment_short frames self
  end.

(** The loop of [extract_body_text]: [recur] is the method itself, called
    on a part with the frames that are left in the body of the method. *)
Fixpoint body_loop_within (recur : MessagePayload → option str) (frames : nat)
    (ps : list MessagePayload) (plain_text html_text : str) : option str :=
  match ps with
  | [] => Some (if truthy plain_text then plain_text else html_text)
  | part :: rest =>
    if opt_truthy (attachment_id (body part))
    then body_loop_within recur frames rest plain_text html_text
    else
      part_text ← recur part;
      plain ← is_text_plain_within frames part;
      if plain : bool
      then body_loop_within recur frames rest (plain_text ++ part_text) html_text
      else
        html ← is_text_html_within frames part;
        if html : bool
        then body_loop_within recur frames rest plain_text (html_text ++ part_text)
        else if truthy part_text then
          if negb (truthy plain_text) && negb (truthy html_text) then Some part_text
          else body_loop_within recur frames rest (plain_text ++ part_text) html_text
        else body_loop_within recur frames rest plain_text html_text
  end.

Fixpoint extract_body_text_within (frames : nat) (self : MessagePayload) : option str :=
  match frames with
  | O => None
  | S frames =>
    match parts self with
    | Some ((_ :: _) as ps) =>
      body_loop_within (extract_body_text_within frames) frames ps [] []
    | _ =>
      plain ← is_text_plain_within frames self;
      if plain : bool then decode_body_data_within frames self
      else
        html ← is_text_html_within frames self;
        if html : bool then decode_body_data_within frames self else Some []
    end
  end.

(** The loop of [extract_attachments], with the method itself as [recur]. *)
Fixpoint attachments_loop_within (recur : MessagePayload → option (list Attachment))
    (ps : list MessagePayload) (attachments : list Attachment) : option (list Attachment) :=
  match ps with
  | [] => Some attachments
  | sub_part :: rest =>
    sub_attachments ← recur sub_part;
    attachments_loop_within recur rest (attachments ++ sub_attachments)
  end.

Fixpoint extract_attachments_within (frames : nat) (self : MessagePayload) :
    option (list Attachment) :=
  match frames with
  | O => None
  | S frames =>
    attachment ← create_attachment_within frames self;
    let attachments :=
      match attachment with
      | Some attachment => [] ++ [attachment]
      | None => []
      end in
    match parts self with
    | Some ((_ :: _) as ps) =>
      attachments_loop_within (extract_attachments_within frames) ps attachments
    | _ => Some attachments
    end
  end.

End Stack.

(** *** The specification's filename decoder

    Each part decoded with its declared charset, and with UTF-8 when the
    charset is absent or has no codec; the segments concatenated; the
    argument returned when the header cannot be parsed. *)
Definition spec_decode_part (p : Py.part * option str) : str :=
  match p with
  | (Py.PBytes b, Some charset) =>
    match bytes_decode charset b with
    | Some text => text
    | None => Py.decode_utf8_ignore b
    end
  | (Py.PBytes b, None) => Py.decode_utf8_ignore b
  | (Py.PStr s, _) => s
  end.

Definition spec_decode_rfc2047_filename (raw : str) : str :=
  match Py.decode_header raw with
  | Some decoded_parts => concat (spec_decode_part <$> decoded_parts)
  | None => raw
  end.

(** ** Sample values *)

(** A registry with the codecs of Latin-1 and ASCII besides UTF-8. *)
Definition sample_codecs (encoding : str) : option (bytes → option str) :=
  if bool_decide (encoding = lit "iso-8859-1") || bool_decide (encoding = lit "latin-1")
  then Some (λ b, Some b)
  else if bool_decide (encoding = lit "us-ascii") || bool_decide (encoding = lit "ascii")
  then Some (λ b, Some (filter (λ c, c < 128) b))
  else None.

Definition text_part (mime data : string) : MessagePayload :=
  mkMessagePayload (lit mime) None (mkPayloadBody None (Some (lit data)) 0) None None.

Definition container (mime : string) (cs : list MessagePayload) : MessagePayload :=
  mkMessagePayload (lit mime) None (mkPayloadBody None None 0) (Some cs) None.

Definition file_part (mime name id : string) (sz : Z) : MessagePayload :=
  mkMessagePayload (lit mime) (Some (lit name)) (mkPayloadBody (Some (lit id)) None sz)
    None None.

Definition header (name : string) (value : str) : gmap str str :=
  {[lit "name" := lit name; lit "value" := value]}.

(** A parameter with its value between quotation marks. *)
Definition quoted_param (param value : string) : str :=
  lit param ++ [34] ++ lit value ++ [34].

(** The two headers of the precedence test, and a part carrying them. *)
Definition disposition_header : gmap str str :=
  header "Content-Disposition" (quoted_param "attachment; filename=" "document.pdf").
Definition type_header : gmap str str :=
  header "Content-Type" (quoted_param "application/pdf; name=" "other.pdf").

(** The texts [Plain text] and [<p>HTML text</p>] of the test suite. *)
Definition plain_part : MessagePayload := text_part "text/plain" "UGxhaW4gdGV4dA==".
Definition html_part : MessagePayload := text_part "text/html" "PHA-SFRNTCB0ZXh0PC9wPg==".

(** A text part stored remotely, without a name. *)
Definition unnamed_remote_part : MessagePayload :=
  mkMessagePayload (lit "text/plain") None
    (mkPayloadBody (Some (lit "att1")) (Some (lit "UGxhaW4gdGV4dA==")) 0) None None.

(** The same with an empty id. *)
Definition empty_id_part : MessagePayload :=
  mkMessagePayload (lit "text/plain") None
    (mkPayloadBody (Some []) (Some (lit "UGxhaW4gdGV4dA==")) 0) None None.

Definition headed_part (hs : list (gmap str str)) : MessagePayload :=
  mkMessagePayload (lit "application/pdf") None (mkPayloadBody (Some (lit "att1")) None 1024)
    None (Some hs).

(** The nested message of the test suite, with two more files. *)
Definition nested_message : MessagePayload :=
  container "multipart/mixed"
    [ file_part "application/pdf" "doc1.pdf" "att1" 1024;
      container "multipart/alternative"
        [ text_part "text/plain" "dGV4dA=="; file_part "image/png" "image.png" "att2" 2048 ];
      file_part "application/pdf" "nested.pdf" "att_nested" 1024 ].

(** A container whose first child is a nested container holding only
    HTML, and whose second child is the plain text. *)
Definition html_first_message : MessagePayload :=
  container "multipart/mixed"
    [ container "multipart/alternative" [html_part]; plain_part ].

(** A plain text with a thousand containers around it, as many as the
    interpreter allows nested calls by default; and a stack on which a
    helper needs eight frames below its own and, with fewer, returns
    without raising: [decode_body_data] the empty text that the [except]
    clause of [decode_base64_text] gives, [create_attachment] no
    attachment. *)
Definition deep_message : MessagePayload := nest 1000 (lit "multipart/mixed") plain_part.

Definition sample_helper_frames : nat := 8.

Definition sample_decode_body_data_short (frames : nat) (self : MessagePayload) :
    option str :=
  Some [].

Definition sample_create_attachment_short (frames : nat) (self : MessagePayload) :
    option (option Attachment) :=
  Some None.

(** A match with exactly one group, which is not empty. *)
Definition one_group (m : Py.re_match) : Prop :=
  (∃ q, m = (Some q, None) ∧ q ≠ []) ∨ (∃ t, m = (None, Some t) ∧ t ≠ []).

(** The header is named [key], up to case. *)
Definition names (key : str) (h : gmap str str) : bool :=
  bool_decide (Py.lower (header_name h) = key).

(** *** Checks over a range of numbers

    [all_bits k base P] tests [P] on the [2 ^ k] numbers from [base] on;
    the facts about single octets and code points are settled with it. *)
Fixpoint all_bits (k : nat) (base : N) (P : N → bool) : bool :=
  match k with
  | O => P base
  | S k' => all_bits k' base P && all_bits k' (base + 2 ^ N.of_nat k') P
  end.

(** The four sextets of three octets, as [urlsafe_b64encode] cuts them. *)
Definition sextet0 (a : N) : N := N.shiftr a 2.
Definition sextet1 (a b : N) : N := N.lor (N.shiftl (N.land a 3) 4) (N.shiftr b 4).
Definition sextet2 (b c : N) : N := N.lor (N.shiftl (N.land b 15) 2) (N.shiftr c 6).
Definition sextet3 (c : N) : N := N.land c 63.

(** A character that an encoder may write: an ASCII character, also after
    the URL-safe translation, which the decoder's translation undoes; it
    is no question mark and no line break. *)
Definition encoded_char (c : N) : bool :=
  (c <? 128) && (Py.urlsafe_encode_translate c <? 128)
  && (Py.urlsafe_translate (Py.urlsafe_encode_translate c) =? c)
  && negb (c =? 63) && negb (Py.is_linebreak c).

(** The character of a sextet is such a character, other than the pad,
    and the decoder's table maps it back to the sextet. *)
Definition char_ok (v : N) : bool :=
  negb (Py.b2a_table v =? 61)
  && bool_decide (Py.a2b_table (Py.b2a_table v) = Some v)
  && encoded_char (Py.b2a_table v).

(** The sextets of two neighbouring octets are below 64, and the decoder's
    shifts put the octets together again. *)
Definition pair_ok (a b : N) : bool :=
  (sextet0 a <? 64) && (sextet1 a b <? 64) && (sextet2 a b <? 64) && (sextet3 b <? 64)
  && (N.lor (N.shiftl (sextet0 a) 2) (N.shiftr (sextet1 a b) 4) =? a)
  && (N.land (sextet1 a b) 15 =? N.shiftr b 4)
  && (N.shiftr (sextet2 a b) 2 =? N.land a 15)
  && (N.lor (N.shiftl (N.land (sextet2 a b) 3) 6) (sextet3 b) =? b)
  && (N.lor (N.shiftl (N.shiftr a 4) 4) (N.land a 15) =? a).

(** The tests the UTF-8 decoder makes on the octets of an encoded code
    point of the Basic Multilingual Plane, on the first two octets of a
    code point above it, given its bits from the twelfth on, and on a
    continuation octet. *)
Definition bmp_char_ok (c : N) : bool :=
  if c <? 128 then true
  else if c <? 2048 then
    let b0 := N.lor 192 (N.shiftr c 6) in
    let b1 := N.lor 128 (N.land c 63) in
    negb (b0 <? 128) && negb ((b0 <? 194) || (245 <=? b0)) && (b0 <? 224)
    && Py.is_cont b1 && (Py.cp2 b0 b1 =? c)
  else if (55296 <=? c) && (c <? 57344) then true
  else
    let b0 := N.lor 224 (N.shiftr c 12) in
    let b1 := N.lor 128 (N.land (N.shiftr c 6) 63) in
    let b2 := N.lor 128 (N.land c 63) in
    negb (b0 <? 128) && negb ((b0 <? 194) || (245 <=? b0)) && negb (b0 <? 224)
    && (b0 <? 240) && Py.second_ok b0 b1 && Py.is_cont b2 && (Py.cp3 b0 b1 b2 =? c).

Definition lead4_ok (hi : N) : bool :=
  if (16 <=? hi) && (hi <? 272) then
    let b0 := N.lor 240 (N.shiftr hi 6) in
    let b1 := N.lor 128 (N.land hi 63) in
    negb (b0 <? 128) && negb ((b0 <? 194) || (245 <=? b0)) && negb (b0 <? 224)
    && negb (b0 <? 240) && Py.second_ok b0 b1 && (N.land b0 7 =? N.shiftr hi 6)
  else true.

Definition cont_ok (x : N) : bool :=
  Py.is_cont (N.lor 128 x) && (N.land (N.lor 128 x) 63 =? x).

(** A character of one of the two base64 alphabets, and the number of
    such characters in a string. *)
Definition in_alphabet (c : N) : bool :=
  match Py.a2b_table (Py.urlsafe_translate c) with Some _ => true | None => false end.

Definition sextets (s : str) : nat := length (List.filter in_alphabet s).

(** *** Variants of a part tree

    The same node with other headers; the tree without the fields that
    describe a file (the filename, the headers and the size) on any node;
    and the tree without body data on any node. *)
Definition with_headers (hs : option (list (gmap str str))) (self : MessagePayload) :
    MessagePayload :=
  mkMessagePayload (mime_type self) (filename self) (body self) (parts self) hs.

Fixpoint erase_meta (self : MessagePayload) : MessagePayload :=
  mkMessagePayload (mime_type self) None
    (mkPayloadBody (attachment_id (body self)) (data (body self)) 0)
    (match parts self with
     | Some ps => Some (erase_meta <$> ps)
     | None => None
     end)
    None.

Fixpoint erase_data (self : MessagePayload) : MessagePayload :=
  mkMessagePayload (mime_type self) (filename self)
    (mkPayloadBody (attachment_id (body self)) None (size (body self)))
    (match parts self with
     | Some ps => Some (erase_data <$> ps)
     | None => None
     end)
    (headers self).

(** Two lists of headers with the same names up to case and the same
    values, header by header. *)
Definition same_headers (hs hs' : list (gmap str str)) : Prop :=
  Forall2 (λ h h', Py.lower (header_name h) = Py.lower (header_name h')
                   ∧ header_value h = header_value h') hs hs'.

(** A node without parts whose MIME type is text/plain or text/html. *)
Definition text_leaf (node : MessagePayload) : Prop :=
  children node = [] ∧ is_text_plain node || is_text_html node = true.

(** An encoded word with UTF-8 as charset and B as encoding, written in
    lower or in upper case. *)
Definition encoded_word (upper : bool) (encoded : str) : str :=
  (if upper then lit "=?UTF-8?B?" else lit "=?utf-8?b?") ++ encoded ++ lit "?=".

(** ** [gmail_client.py]: the headers of a message

    [get_message] and the callback of [get_messages_batch] build a
    dictionary from the names of the headers, as they are written, to
    their values, and read Subject, From, To and Date from it with the
    empty string as default.  A header without name or without value
    raises [KeyError] (here [None]). *)
Definition client_header_step (acc : option (gmap str str)) (h : gmap str str) :
    option (gmap str str) :=
  match acc, h !! lit "name", h !! lit "value" with
  | Some d, Some name, Some value => Some (<[name := value]> d)
  | _, _, _ => None
  end.

Definition client_header_dict (headers : list (gmap str str)) : option (gmap str str) :=
  foldl client_header_step (Some ∅) headers.

Definition header_field (key : string) (header_dict : gmap str str) : str :=
  default [] (header_dict !! lit key).

(** The header is named [key], letter for letter; and the value of the
    last header so named, empty when there is none. *)
Definition named (key : str) (h : gmap str str) : bool :=
  bool_decide (header_name h = key).

Fixpoint last_named_value (key : str) (hs : list (gmap str str)) : str :=
  match hs with
  | [] => []
  | h :: rest =>
    if existsb (named key) rest then last_named_value key rest
    else if named key h then header_value h
    else []
  end.

(** ** [gmail_client.py]: the bookkeeping of [get_messages_batch]

    The library invokes the callback once or more, with a request id, a
    response and an exception, while [batch.execute()] runs; the callback
    records a message under the id in [results], or an exception in
    [errors], or nothing.  The parsing of a response into a [Message],
    which may raise, is a parameter, and so are the three types. *)
Section Batch.

Context {Response Message Error : Type} (parse : Response → Message + Error).

Record call := mkCall {
  request_id : str;
  response : option Response;
  exception : option Error
}.

Record batch_state := mkBatchState {
  results : gmap str Message;
  errors : gmap str Error
}.

Definition callback (st : batch_state) (c : call) : batch_state :=
  match exception c with
  | Some e => mkBatchState (results st) (<[request_id c := e]> (errors st))
  | None =>
    match response c with
    | None => st
    | Some r =>
      match parse r with
      | inl message => mkBatchState (<[request_id c := message]> (results st)) (errors st)
      | inr e => mkBatchState (results st) (<[request_id c := e]> (errors st))
      end
    end
  end.

(** The method returns a list or raises [RuntimeError]. *)
Inductive outcome := Returns (messages : list Message) | Raises.

(** [execute] stands for the library between the creation of the batch and
    the return of [batch.execute()]: the invocations of the callback it
    makes for the given ids, or [None] when it raises. *)
Definition get_messages_batch (execute : list str → option (list call))
    (message_ids : list str) : outcome :=
  if negb (truthy message_ids) then Returns []
  else
    match execute message_ids with
    | None => Raises
    | Some calls =>
      let st := foldl callback (mkBatchState ∅ ∅) calls in
      if negb (base.size (errors st) =? 0)%nat && (base.size (results st) =? 0)%nat
      then Raises
      else Returns (omap (λ message_id, results st !! message_id) message_ids)
    end.

(** The message an invocation records, if any; whether it records an
    exception; and the message recorded last under an id. *)
Definition answer (c : call) : option Message :=
  match exception c, response c with
  | None, Some r => match parse r with inl message => Some message | inr _ => None end
  | _, _ => None
  end.

Definition failed (c : call) : bool :=
  match exception c, response c with
  | Some _, _ => true
  | None, Some r => match parse r with inl _ => false | inr _ => true end
  | None, None => false
  end.

Fixpoint final_result (message_id : str) (calls : list call) (acc : option Message) :
    option Message :=
  match calls with
  | [] => acc
  | c :: rest =>
    final_result message_id rest
      (if bool_decide (request_id c = message_id)
       then match answer c with Some message => Some message | None => acc end
       else acc)
  end.

(** The answer of the first invocation made for an id. *)
Definition answer_for (calls : list call) (message_id : str) : option Message :=
  match List.find (λ c, bool_decide (request_id c = message_id)) calls with
  | Some c => answer c
  | None => None
  end.

End Batch.

Arguments call : clear implicits.
Arguments batch_state : clear implicits.
Arguments outcome : clear implicits.

(** *** More sample values *)

(** A text with code points of one, two, three and four octets, and its
    UTF-8 encoding. *)
Definition mixed_text : str := [65; 233; 26085; 128512].
Definition mixed_bytes : bytes := [65; 195; 169; 230; 151; 165; 240; 159; 152; 128].

(** A text part that is sent as a named file and stored remotely. *)
Definition text_attachment_part : MessagePayload :=
  mkMessagePayload (lit "text/plain") (Some (lit "notes.txt"))
    (mkPayloadBody (Some (lit "att9")) (Some (lit "UGxhaW4gdGV4dA==")) 10) None None.

(** A text/plain node with data of its own and one child, a file. *)
Definition text_with_file : MessagePayload :=
  mkMessagePayload (lit "text/plain") None
    (mkPayloadBody None (Some (lit "UGxhaW4gdGV4dA==")) 0)
    (Some [file_part "application/pdf" "doc1.pdf" "att1" 1024]) None.

(** A file whose [filename] field is an encoded word. *)
Definition encoded_name_part : MessagePayload :=
  file_part "application/pdf" "=?utf-8?q?caf=C3=A9?=.pdf" "att1" 1024.

(** A Content-Disposition header with an unquoted file name. *)
Definition unquoted_disposition_header : gmap str str :=
  header "content-disposition" (lit "attachment; filename=report.pdf; size=3").

(** A parser that accepts every response but the empty one; a run of the
    library in which the request [m2] fails, [m1] is answered and [m3] is
    answered with a response that does not parse; and a library that makes
    the given invocations whatever the ids. *)
Definition sample_parse (r : str) : str + str :=
  if truthy r then inl r else inr (lit "KeyError").

Definition sample_calls : list (call str str) :=
  [ mkCall (lit "m2") None (Some (lit "HttpError"));
    mkCall (lit "m1") (Some (lit "first message")) None;
    mkCall (lit "m3") (Some []) None ].

Definition sample_execute (calls : list (call str str)) (message_ids : list str) :
    option (list (call str str)) :=
  Some calls.

(** A file name outside ASCII and its UTF-8 encoding. *)
Definition japanese_name : str := [26085; 26412; 35486; 46; 112; 100; 102].
Definition japanese_name_bytes : bytes :=
  [230; 151; 165; 230; 156; 172; 232; 170; 158; 46; 112; 100; 102].

(** The headers of a message whose subject is written in lower case. *)
Definition lower_case_headers : list (gmap str str) :=
  [header "subject" (lit "Hello"); header "From" (lit "a@example.com")].

(** ** Basic facts *)

(** Induction over part trees: a property holds of every node as soon as
    it passes from the children of a node to the node. *)
Lemma MessagePayload_tree_ind (P : MessagePayload → Prop) :
  (∀ self, Forall P (children self) → P self) → ∀ self, P self.
Proof.
  intros step. fix IH 1. intros [mime name b ps hs].
  apply step. unfold children; simpl.
  destruct ps as [ps|]; simpl; [|constructor].
  revert ps. fix IHps 1. intros [|p ps]; constructor.
  - apply IH.
  - apply IHps.
Qed.

Lemma truthy_true {A} (l : list A) : truthy l = true ↔ l ≠ [].
Proof. destruct l; simpl; split; congruence. Qed.

Lemma truthy_false {A} (l : list A) : truthy l = false ↔ l = [].
Proof. destruct l; simpl; split; congruence. Qed.

(** The method in terms of its loop. *)
Lemma extract_body_text_unfold self :
  extract_body_text self =
  match parts self with
  | Some ((_ :: _) as ps) => body_loop ps [] []
  | _ => if is_text_plain self || is_text_html self then decode_body_data self else []
  end.
Proof.
  destruct self as [mime name b [l|] hs]; [|reflexivity].
  destruct l as [|p ps]; [reflexivity|]. simpl.
  match goal with
  | |- context [?loop ps [] []] =>
    lazymatch loop with body_loop => fail | _ => idtac end;
    assert (Hloop : ∀ l plain html, loop l plain html = body_loop l plain html)
  end.
  { clear. intros l. induction l as [|q l IHl]; intros plain html; simpl; [reflexivity|].
    rewrite !IHl. reflexivity. }
  rewrite !Hloop. reflexivity.
Qed.

Lemma extract_body_text_container self ps :
  parts self = Some ps → ps ≠ [] → extract_body_text self = body_loop ps [] [].
Proof.
  intros Hps Hne. rewrite extract_body_text_unfold, Hps.
  destruct ps; [congruence|reflexivity].
Qed.

Lemma extract_body_text_leaf self :
  children self = [] →
  extract_body_text self =
  if is_text_plain self || is_text_html self then decode_body_data self else [].
Proof.
  unfold children. intros Hc. rewrite extract_body_text_unfold.
  destruct (parts self) as [[|p ps]|]; simpl in Hc; congruence.
Qed.

(** [extract_attachments]: the attachment of the node, then those of the
    children in their order. *)
Lemma extract_attachments_unfold self :
  extract_attachments self =
  option_list (create_attachment self) ++ (children self ≫= extract_attachments).
Proof.
  destruct self as [mime name b l hs]. unfold children.
  destruct l as [[|p ps]|]; simpl;
    try (destruct (create_attachment _); reflexivity).
  match goal with
  | |- ?loop ps ?own = _ =>
    assert (Hloop : ∀ l acc, loop l acc = acc ++ (l ≫= extract_attachments))
  end.
  { clear. intros l. induction l as [|q l IHl]; intros acc; simpl.
    - rewrite app_nil_r. reflexivity.
    - rewrite IHl, app_assoc. reflexivity. }
  rewrite Hloop. destruct (create_attachment _); simpl; reflexivity.
Qed.

Lemma preorder_unfold self :
  preorder self = self :: (children self ≫= preorder).
Proof.
  destruct self as [mime name b l hs]. unfold children. simpl.
  f_equal. destruct l as [ps|]; [|reflexivity]. simpl.
  induction ps as [|q ps IHps]; simpl; [reflexivity|].
  rewrite IHps. reflexivity.
Qed.

Lemma decode_base64_text_empty : decode_base64_text [] = [].
Proof. reflexivity. Qed.

(** ** The pass over the children *)

Lemma body_loop_skip part rest plain html :
  skipped part = true →
  body_loop (part :: rest) plain html = body_loop rest plain html.
Proof. unfold skipped. intros Hs. simpl. rewrite Hs. reflexivity. Qed.

Lemma body_loop_remove_skipped part before after plain html :
  skipped part = true →
  body_loop (before ++ part :: after) plain html = body_loop (before ++ after) plain html.
Proof.
  intros Hs. revert plain html.
  induction before as [|q before IH]; intros plain html.
  - apply body_loop_skip, Hs.
  - simpl. rewrite !IH. reflexivity.
Qed.

Lemma body_loop_single part :
  skipped part = false → body_loop [part] [] [] = extract_body_text part.
Proof.
  unfold skipped. intros Hs. simpl. rewrite Hs.
  destruct (is_text_plain part); [destruct (extract_body_text part); reflexivity|].
  destruct (is_text_html part); [reflexivity|].
  destruct (extract_body_text part); reflexivity.
Qed.

Lemma kind_of_plain part : kind_of part = KPlain ↔ is_text_plain part = true.
Proof.
  unfold kind_of, is_text_plain.
  destruct (bool_decide (mime_type part = lit "text/plain")); [tauto|].
  destruct (bool_decide (mime_type part = lit "text/html")); split; congruence.
Qed.

Lemma kind_of_cases part :
  (kind_of part = KPlain ∧ is_text_plain part = true)
  ∨ (kind_of part = KHtml ∧ is_text_plain part = false ∧ is_text_html part = true)
  ∨ (kind_of part = KOther ∧ is_text_plain part = false ∧ is_text_html part = false).
Proof.
  unfold kind_of, is_text_plain, is_text_html.
  destruct (bool_decide (mime_type part = lit "text/plain")); [tauto|].
  destruct (bool_decide (mime_type part = lit "text/html")); tauto.
Qed.

(** When no other child yields text, the pass ends with the two
    accumulators extended by the direct texts. *)
Lemma body_loop_direct cs :
  (∀ c, c ∈ cs → skipped c = false → kind_of c = KOther → extract_body_text c = []) →
  ∀ plain html,
    body_loop cs plain html =
    if truthy (plain ++ direct_text KPlain cs) then plain ++ direct_text KPlain cs
    else html ++ direct_text KHtml cs.
Proof.
  induction cs as [|c cs IH]; intros Hother plain html.
  - unfold direct_text. simpl. rewrite !app_nil_r. reflexivity.
  - assert (Hcs : ∀ c', c' ∈ cs → skipped c' = false → kind_of c' = KOther →
                         extract_body_text c' = []).
    { intros c' Hin. apply Hother. right. exact Hin. }
    specialize (IH Hcs). specialize (Hother c (list_elem_of_here _ _)).
    unfold direct_text in *. simpl. fold (skipped c).
    destruct (skipped c) eqn:Hs; [apply IH|].
    destruct (kind_of_cases c) as [[Hk Hp]|[[Hk [Hp Hh]]|[Hk [Hp Hh]]]];
      rewrite Hk, Hp, ?Hh; simpl.
    + rewrite IH, !app_assoc. reflexivity.
    + rewrite IH, !app_assoc. reflexivity.
    + rewrite (Hother eq_refl Hk). simpl. apply IH.
Qed.

Lemma foldl_spec_step_returned text l :
  foldl spec_step (Returned text) l = Returned text.
Proof. induction l as [|x l IH]; simpl; [reflexivity|exact IH]. Qed.

Lemma spec_finish_running plain html :
  spec_finish (Running plain html) = if truthy plain then plain else html.
Proof. destruct plain, html; reflexivity. Qed.

Lemma body_loop_spec cs :
  Forall (λ c, extract_body_text c = spec_extract_body_text c) cs →
  ∀ plain html,
    body_loop cs plain html =
    spec_finish
      (foldl spec_step (Running plain html)
         (omap (λ child, if skipped child then None
                         else Some (kind_of child, spec_extract_body_text child)) cs)).
Proof.
  induction 1 as [|c cs Hc _ IH]; intros plain html.
  - simpl. symmetry. apply spec_finish_running.
  - simpl. fold (skipped c). destruct (skipped c) eqn:Hs; [apply IH|].
    simpl. rewrite <- Hc.
    destruct (kind_of_cases c) as [[Hk Hp]|[[Hk [Hp Hh]]|[Hk [Hp Hh]]]];
      rewrite Hk, Hp, ?Hh; simpl; try apply IH.
    destruct (extract_body_text c) as [|x t] eqn:Ht; simpl; [apply IH|].
    destruct plain as [|y plain]; simpl; [|apply IH].
    destruct html as [|z html]; simpl; [|apply IH].
    rewrite foldl_spec_step_returned. reflexivity.
Qed.

Lemma decode_body_data_spec self :
  decode_body_data self =
  match data (body self) with Some d => decode_base64_text d | None => [] end.
Proof.
  unfold decode_body_data. destruct (data (body self)) as [[|c d]|]; reflexivity.
Qed.

Lemma leaf_text_spec self :
  (if is_text_plain self || is_text_html self then decode_body_data self else []) =
  match kind_of self, data (body self) with
  | (KPlain | KHtml), Some d => decode_base64_text d
  | _, _ => []
  end.
Proof.
  rewrite decode_body_data_spec.
  destruct (kind_of_cases self) as [[Hk Hp]|[[Hk [Hp Hh]]|[Hk [Hp Hh]]]];
    rewrite Hk, Hp, ?Hh; simpl; destruct (data (body self)); reflexivity.
Qed.

Lemma extract_body_text_without_attachment_id self :
  extract_body_text (without_attachment_id self) = extract_body_text self.
Proof.
  rewrite !extract_body_text_unfold. destruct self as [mime name [aid d sz] l hs].
  reflexivity.
Qed.

(** A child that is neither text/plain nor text/html and has text ends
    the pass when it is met with both accumulators empty, that is when
    every child before it is skipped or has no text. *)
Lemma body_loop_first_nested before c after :
  (∀ b, b ∈ before → skipped b = true ∨ extract_body_text b = []) →
  skipped c = false → kind_of c = KOther → extract_body_text c ≠ [] →
  body_loop (before ++ c :: after) [] [] = extract_body_text c.
Proof.
  intros Hbefore Hs Hk Htext.
  induction before as [|b before IH].
  - simpl. fold (skipped c). rewrite Hs.
    destruct (kind_of_cases c) as [[Hk' _]|[[Hk' _]|[_ [Hp Hh]]]]; try congruence.
    rewrite Hp, Hh. apply truthy_true in Htext. rewrite Htext. reflexivity.
  - assert (IH' : body_loop (before ++ c :: after) [] [] = extract_body_text c).
    { apply IH. intros b' Hb'. apply Hbefore. right. exact Hb'. }
    destruct (Hbefore b (list_elem_of_here _ _)) as [Hb|Hb].
    + rewrite <- app_comm_cons, body_loop_skip by exact Hb. exact IH'.
    + rewrite <- app_comm_cons. simpl. rewrite Hb. simpl.
      destruct (opt_truthy (attachment_id (body b))); [exact IH'|].
      destruct (is_text_plain b); [exact IH'|].
      destruct (is_text_html b); exact IH'.
Qed.

(** ** Body text *)

(** C1, as amended.  Plain text is preferred among the direct children of
    a container: when no child other than the text/plain and text/html
    children yields text, the result is the concatenation of the texts of
    the text/plain children that are not skipped, whenever that is not
    empty, and of the text/html children otherwise.  And a child that is
    neither, that is not skipped and whose text is not empty, met while
    both accumulators are still empty (every child before it is skipped
    or has no text), is returned at once, whatever it contains and
    whatever follows it. *)
Theorem C1_plain_preferred_among_direct_children (self : MessagePayload)
    (cs : list MessagePayload) :
  parts self = Some cs → cs ≠ [] →
  ((∀ c, c ∈ cs → skipped c = false → kind_of c = KOther → extract_body_text c = []) →
   (direct_text KPlain cs ≠ [] → extract_body_text self = direct_text KPlain cs)
   ∧ (direct_text KPlain cs = [] → extract_body_text self = direct_text KHtml cs))
  ∧ (∀ before c after,
        cs = before ++ c :: after →
        (∀ b, b ∈ before → skipped b = true ∨ extract_body_text b = []) →
        skipped c = false → kind_of c = KOther → extract_body_text c ≠ [] →
        extract_body_text self = extract_body_text c).
Proof.
  intros Hps Hne. rewrite (extract_body_text_container self cs Hps Hne). split.
  - intros Hother. rewrite (body_loop_direct cs Hother).
    simpl. split; intros Hplain.
    + apply truthy_true in Hplain. rewrite Hplain. reflexivity.
    + rewrite Hplain. reflexivity.
  - intros before c after -> Hbefore Hs Hk Htext.
    apply body_loop_first_nested; assumption.
Qed.


(** C4.  [extract_body_text] is the reference recursion of the
    specification: on a container, the pass [spec_step] over the children
    that are not skipped, finished by [spec_finish]; on a leaf, the byte
    decoder applied to the data when the MIME type is text/plain or
    text/html and the data is present, the empty string otherwise. *)
Theorem C4_extract_body_text_reference (self : MessagePayload) :
  extract_body_text self = spec_extract_body_text self.
Proof.
  induction self as [self IH] using MessagePayload_tree_ind.
  rewrite extract_body_text_unfold.
  destruct self as [mime name b [[|p ps]|] hs]; unfold children in IH; simpl in IH.
  - apply leaf_text_spec.
  - cbn [parts]. rewrite (body_loop_spec _ IH). reflexivity.
  - apply leaf_text_spec.
Qed.

(** C8.  The byte decoder returns the lossy UTF-8 decoding of the URL-safe
    base64 decoding of its argument when that decoding succeeds, and the
    empty string when it raises; it maps the empty string and
    [invalid_base64!!!] to the empty string. *)
Theorem C8_decode_base64_text (data : str) :
  decode_base64_text data =
    from_option Py.decode_utf8_ignore [] (Py.urlsafe_b64decode data)
  ∧ (Py.urlsafe_b64decode data = None → decode_base64_text data = [])
  ∧ decode_base64_text (lit "") = lit ""
  ∧ Py.urlsafe_b64decode (lit "invalid_base64!!!") = None
  ∧ decode_base64_text (lit "invalid_base64!!!") = lit "".
Proof.
  unfold decode_base64_text.
  split; [destruct (Py.urlsafe_b64decode data); reflexivity|].
  split; [intros Hraise; rewrite Hraise; reflexivity|].
  repeat split; vm_compute; reflexivity.
Qed.


(** ** Attachments *)

Lemma extract_filename_from_headers_absent self :
  opt_truthy (headers self) = false → extract_filename_from_headers self = None.
Proof.
  unfold extract_filename_from_headers.
  destruct (headers self) as [[|h hs]|]; simpl; congruence.
Qed.

Lemma create_attachment_spec self : create_attachment self = spec_attachment self.
Proof.
  unfold create_attachment, spec_attachment, spec_resolved_filename.
  destruct (attachment_id (body self)) as [[|c aid]|]; try reflexivity.
  destruct (filename self) as [[|d name]|]; simpl; try reflexivity;
    (destruct (opt_truthy (headers self)) eqn:Hh;
     [destruct (extract_filename_from_headers self) as [[|e name']|]; reflexivity
     | rewrite (extract_filename_from_headers_absent self Hh); reflexivity]).
Qed.

Lemma omap_cons_option_list {A B} (f : A → option B) x l :
  omap f (x :: l) = option_list (f x) ++ omap f l.
Proof. simpl. destruct (f x); reflexivity. Qed.

Lemma extract_attachments_preorder self :
  extract_attachments self = omap create_attachment (preorder self).
Proof.
  induction self as [self IH] using MessagePayload_tree_ind.
  rewrite extract_attachments_unfold, preorder_unfold, omap_cons_option_list.
  f_equal. induction IH as [|c cs Hc _ IHcs]; [reflexivity|].
  cbn [mbind list_bind]. rewrite omap_app, Hc, IHcs. reflexivity.
Qed.

Lemma extract_attachments_none self :
  (∀ n, n ∈ preorder self → create_attachment n = None) → extract_attachments self = [].
Proof.
  rewrite extract_attachments_preorder. generalize (preorder self). intros l Hl.
  induction l as [|n l IH]; [reflexivity|].
  simpl. rewrite (Hl n (list_elem_of_here _ _)). apply IH.
  intros n' Hn'. apply Hl. right. exact Hn'.
Qed.

(** C3.  A node yields an attachment exactly when it passes the test of
    the specification: its [body.attachment_id] is present and not empty
    and its filename, the field when not empty and the header resolver's
    result otherwise, is a non-empty name; the attachment carries the id,
    that name, the MIME type and the size of the node.  A node whose
    filename does not resolve contributes nothing of its own to
    [extract_attachments], so a leaf with an id and no name yields no
    attachment. *)
Theorem C3_attachment_iff_eligible (node : MessagePayload) :
  create_attachment node = spec_attachment node
  ∧ (∀ a, create_attachment node = Some a ↔
          ∃ aid name,
            attachment_id (body node) = Some aid ∧ aid ≠ []
            ∧ spec_resolved_filename node = Some name ∧ name ≠ []
            ∧ a = mkAttachment aid name (mime_type node) (size (body node)))
  ∧ extract_attachments node
    = option_list (spec_attachment node) ++ (children node ≫= extract_attachments)
  ∧ (spec_resolved_filename node = None ∨ spec_resolved_filename node = Some [] →
     create_attachment node = None
     ∧ extract_attachments node = children node ≫= extract_attachments).
Proof.
  split; [apply create_attachment_spec|].
  split; [|split].
  - intros a. rewrite create_attachment_spec. unfold spec_attachment. split.
    + destruct (attachment_id (body node)) as [[|c aid]|]; try discriminate.
      destruct (spec_resolved_filename node) as [[|d name]|]; try discriminate.
      intros [= <-]. exists (c :: aid), (d :: name). repeat split; congruence.
    + intros (aid & name & -> & Haid & -> & Hname & ->).
      destruct aid; [congruence|]. destruct name; [congruence|]. reflexivity.
  - rewrite extract_attachments_unfold, create_attachment_spec. reflexivity.
  - intros Hname.
    assert (Hc : create_attachment node = None).
    { rewrite create_attachment_spec. unfold spec_attachment.
      destruct (attachment_id (body node)) as [[|c aid]|]; try reflexivity;
        destruct Hname as [-> | ->]; reflexivity. }
    split; [exact Hc|]. rewrite extract_attachments_unfold, Hc. reflexivity.
Qed.

(** C7.  The attachments come in depth-first, left-to-right order: they
    are the attachments of the nodes of the tree taken in pre-order, which
    is the attachment of the node itself, if any, followed by the results
    of the children in their order; the children are visited whether or
    not the node itself yields an attachment. *)
Theorem C7_attachments_in_preorder (self : MessagePayload) :
  extract_attachments self = omap create_attachment (preorder self)
  ∧ extract_attachments self
    = option_list (create_attachment self) ++ (children self ≫= extract_attachments)
  ∧ ∀ before child after,
      children self = before ++ child :: after →
      extract_attachments self
      = option_list (create_attachment self) ++ (before ≫= extract_attachments)
        ++ extract_attachments child ++ (after ≫= extract_attachments).
Proof.
  split; [apply extract_attachments_preorder|].
  split; [apply extract_attachments_unfold|].
  intros before child after Hcs.
  rewrite extract_attachments_unfold, Hcs, bind_app. reflexivity.
Qed.

(** ** Totality *)

Lemma depth_nest n mime self : depth (nest n mime self) = (n + depth self)%nat.
Proof.
  induction n as [|n IH]; [reflexivity|].
  cbn [nest depth parts]. rewrite IH. lia.
Qed.

Lemma extract_attachments_nest n mime self :
  extract_attachments (nest n mime self) = extract_attachments self.
Proof.
  induction n as [|n IH]; [reflexivity|].
  cbn [nest]. rewrite extract_attachments_unfold. unfold children. cbn.
  rewrite app_nil_r. exact IH.
Qed.

Lemma skipped_nest n mime self :
  skipped self = false → skipped (nest n mime self) = false.
Proof. destruct n; [tauto|reflexivity]. Qed.

Lemma extract_body_text_nest n mime self :
  skipped self = false → extract_body_text (nest n mime self) = extract_body_text self.
Proof.
  intros Hs. induction n as [|n IH]; [reflexivity|].
  cbn [nest]. rewrite extract_body_text_unfold. cbn [parts].
  rewrite body_loop_single by (apply skipped_nest, Hs). exact IH.
Qed.

(** *** The two methods on a bounded stack *)

Lemma depth_unfold self :
  depth self = foldr (λ p d, Nat.max (S (depth p)) d) O (children self).
Proof.
  destruct self as [mime name b [ps|] hs]; [|reflexivity].
  unfold children. simpl. induction ps as [|p ps IH]; [reflexivity|].
  simpl. rewrite IH. reflexivity.
Qed.

Lemma depth_child self c : c ∈ children self → (S (depth c) ≤ depth self)%nat.
Proof.
  rewrite (depth_unfold self). induction (children self) as [|p ps IH]; intros Hin.
  - apply elem_of_nil in Hin. destruct Hin.
  - apply elem_of_cons in Hin as [->|Hin]; cbn [foldr]; [lia|].
    specialize (IH Hin). lia.
Qed.

Lemma depth_deepest_child self d :
  depth self = S d → ∃ c, c ∈ children self ∧ depth c = d.
Proof.
  rewrite (depth_unfold self). induction (children self) as [|p ps IH]; cbn [foldr];
    [discriminate|].
  intros Hd.
  destruct (Nat.max_spec (S (depth p)) (foldr (λ p d, Nat.max (S (depth p)) d) O ps))
    as [[_ Hmax]|[_ Hmax]]; rewrite Hmax in Hd.
  - destruct (IH Hd) as (c & Hin & Hc). exists c. split; [right; exact Hin|exact Hc].
  - exists p. split; [left|lia].
Qed.

Lemma children_parts self :
  match parts self with
  | Some ((_ :: _) as ps) => children self = ps
  | _ => children self = []
  end.
Proof. unfold children. destruct (parts self) as [[|p ps]|]; reflexivity. Qed.

Section StackFacts.

Variable helper_frames : nat.
Variable decode_body_data_short : nat → MessagePayload → option str.
Variable create_attachment_short : nat → MessagePayload → option (option Attachment).

Lemma is_text_plain_within_enough frames self :
  (1 ≤ frames)%nat → is_text_plain_within frames self = Some (is_text_plain self).
Proof. destruct frames; [lia|reflexivity]. Qed.

Lemma is_text_html_within_enough frames self :
  (1 ≤ frames)%nat → is_text_html_within frames self = Some (is_text_html self).
Proof. destruct frames; [lia|reflexivity]. Qed.

Lemma decode_body_data_within_enough frames self :
  (helper_frames < frames)%nat →
  decode_body_data_within helper_frames decode_body_data_short frames self
  = Some (decode_body_data self).
Proof.
  intros Hlt. unfold decode_body_data_within. destruct frames as [|k]; [lia|].
  apply Nat.ltb_lt in Hlt. rewrite Hlt. reflexivity.
Qed.

Lemma create_attachment_within_enough frames self :
  (helper_frames < frames)%nat →
  create_attachment_within helper_frames create_attachment_short frames self
  = Some (create_attachment self).
Proof.
  intros Hlt. unfold create_attachment_within. destruct frames as [|k]; [lia|].
  apply Nat.ltb_lt in Hlt. rewrite Hlt. reflexivity.
Qed.

Lemma leaf_text_within_enough frames self :
  (helper_frames < frames)%nat →
  (plain ← is_text_plain_within frames self;
   if plain : bool
   then decode_body_data_within helper_frames decode_body_data_short frames self
   else
     html ← is_text_html_within frames self;
     if html : bool
     then decode_body_data_within helper_frames decode_body_data_short frames self
     else Some [])
  = Some (if is_text_plain self || is_text_html self then decode_body_data self else []).
Proof.
  intros Hlt.
  rewrite is_text_plain_within_enough, is_text_html_within_enough,
    decode_body_data_within_enough by lia.
  destruct (is_text_plain self), (is_text_html self); reflexivity.
Qed.

Lemma body_loop_within_enough (recur : MessagePayload → option str) frames ps :
  (1 ≤ frames)%nat →
  Forall (λ c, recur c = Some (extract_body_text c)) ps →
  ∀ plain html, body_loop_within recur frames ps plain html = Some (body_loop ps plain html).
Proof.
  intros Hframes.
  induction 1 as [|c cs Hc _ IH]; intros plain html; [reflexivity|].
  cbn [body_loop_within body_loop].
  rewrite Hc, is_text_plain_within_enough, is_text_html_within_enough by exact Hframes.
  cbn [mbind option_bind].
  destruct (opt_truthy (attachment_id (body c))); [apply IH|].
  destruct (is_text_plain c); [apply IH|].
  destruct (is_text_html c); [apply IH|].
  destruct (truthy (extract_body_text c)); [|apply IH].
  destruct (negb (truthy plain) && negb (truthy html)); [reflexivity|apply IH].
Qed.

Lemma extract_body_text_within_enough self :
  ∀ frames, (depth self + helper_frames + 2 ≤ frames)%nat →
    extract_body_text_within helper_frames decode_body_data_short frames self
    = Some (extract_body_text self).
Proof.
  induction self as [self IH] using MessagePayload_tree_ind. intros frames Hframes.
  destruct frames as [|k]; [lia|].
  cbn [extract_body_text_within]. rewrite extract_body_text_unfold.
  pose proof (children_parts self) as Hps.
  destruct (parts self) as [[|p ps]|].
  - apply leaf_text_within_enough. lia.
  - apply body_loop_within_enough; [lia|].
    rewrite <- Hps. apply Forall_forall. intros c Hc.
    apply (proj1 (Forall_forall _ _) IH c Hc).
    pose proof (depth_child self c Hc). lia.
  - apply leaf_text_within_enough. lia.
Qed.

Lemma attachments_loop_within_enough (recur : MessagePayload → option (list Attachment)) ps :
  Forall (λ c, recur c = Some (extract_attachments c)) ps →
  ∀ attachments,
    attachments_loop_within recur ps attachments
    = Some (attachments ++ (ps ≫= extract_attachments)).
Proof.
  induction 1 as [|c cs Hc _ IH]; intros attachments.
  - cbn. rewrite app_nil_r. reflexivity.
  - cbn [attachments_loop_within]. rewrite Hc. cbn. rewrite IH, app_assoc. reflexivity.
Qed.

Lemma extract_attachments_within_enough self :
  ∀ frames, (depth self + helper_frames + 2 ≤ frames)%nat →
    extract_attachments_within helper_frames create_attachment_short frames self
    = Some (extract_attachments self).
Proof.
  induction self as [self IH] using MessagePayload_tree_ind. intros frames Hframes.
  destruct frames as [|k]; [lia|].
  cbn [extract_attachments_within]. rewrite extract_attachments_unfold.
  rewrite create_attachment_within_enough by lia. cbn [mbind option_bind].
  assert (Hloop : Forall (λ c, extract_attachments_within helper_frames
                                 create_attachment_short k c
                               = Some (extract_attachments c)) (children self)).
  { apply Forall_forall. intros c Hc. apply (proj1 (Forall_forall _ _) IH c Hc).
    pose proof (depth_child self c Hc). lia. }
  pose proof (children_parts self) as Hps.
  destruct (parts self) as [[|p ps]|]; rewrite Hps in *.
  - cbn. rewrite app_nil_r. destruct (create_attachment self); reflexivity.
  - rewrite (attachments_loop_within_enough _ _ Hloop).
    destruct (create_attachment self); reflexivity.
  - cbn. rewrite app_nil_r. destruct (create_attachment self); reflexivity.
Qed.

Lemma attachments_loop_within_raises (recur : MessagePayload → option (list Attachment)) ps :
  Exists (λ c, recur c = None) ps →
  ∀ attachments, attachments_loop_within recur ps attachments = None.
Proof.
  induction 1 as [c cs Hc|c cs _ IH]; intros attachments; cbn [attachments_loop_within].
  - rewrite Hc. reflexivity.
  - destruct (recur c); [apply IH|reflexivity].
Qed.

Lemma extract_attachments_within_deep frames :
  ∀ self, (frames ≤ depth self)%nat →
    extract_attachments_within helper_frames create_attachment_short frames self = None.
Proof.
  induction frames as [|k IH]; intros self Hdeep; [reflexivity|].
  cbn [extract_attachments_within].
  destruct (create_attachment_within _ _ k self) as [attachment|]; [|reflexivity].
  cbn [mbind option_bind].
  destruct (depth self) as [|d] eqn:Hd; [lia|].
  destruct (depth_deepest_child self d Hd) as (c & Hin & Hc).
  pose proof (children_parts self) as Hps.
  destruct (parts self) as [[|p ps]|]; rewrite Hps in Hin;
    try (apply elem_of_nil in Hin; destruct Hin).
  apply attachments_loop_within_raises, Exists_exists.
  exists c. split; [exact Hin|]. apply IH. lia.
Qed.

Lemma extract_body_text_within_nest_deep n mime self :
  skipped self = false →
  ∀ frames, (frames ≤ n)%nat →
    extract_body_text_within helper_frames decode_body_data_short frames (nest n mime self)
    = None.
Proof.
  intros Hs. induction n as [|n IH]; intros frames Hdeep.
  - destruct frames; [reflexivity|lia].
  - destruct frames as [|k]; [reflexivity|].
    cbn [nest extract_body_text_within parts body_loop_within].
    pose proof (skipped_nest n mime self Hs) as Hn. unfold skipped in Hn.
    rewrite Hn, IH by lia. reflexivity.
Qed.

(** C9, as amended.  Both operations return a result on every tree whose
    nesting the call stack accommodates: when the frames that are left
    exceed the depth of the tree by the frames of a helper call and two,
    both return what they return on an unbounded stack, a leaf with every
    optional field absent included, which has the empty text and no
    attachment; and a tree none of whose nodes yields an attachment has
    the empty list of attachments.  Nothing bounds the recursion, one
    call for each level: on a tree at least as deep as there are frames
    left, [extract_attachments] raises [RecursionError], and so does
    [extract_body_text] on [n] containers around a node that is not
    skipped when there are no more than [n] frames left, however the
    helpers behave on a short stack.  On an unbounded stack the [n]
    containers change neither result. *)
Theorem C9_total_within_call_stack (self : MessagePayload) :
  (∀ frames, (depth self + helper_frames + 2 ≤ frames)%nat →
      extract_body_text_within helper_frames decode_body_data_short frames self
      = Some (extract_body_text self)
      ∧ extract_attachments_within helper_frames create_attachment_short frames self
        = Some (extract_attachments self))
  ∧ (∀ frames, (frames ≤ depth self)%nat →
        extract_attachments_within helper_frames create_attachment_short frames self = None)
  ∧ (∀ frames n mime, (frames ≤ n)%nat → skipped self = false →
        extract_body_text_within helper_frames decode_body_data_short frames
          (nest n mime self) = None)
  ∧ ((∀ n, n ∈ preorder self → create_attachment n = None) →
     extract_attachments self = []
     ∧ ∀ frames, (depth self + helper_frames + 2 ≤ frames)%nat →
         extract_attachments_within helper_frames create_attachment_short frames self
         = Some [])
  ∧ (∀ mime,
        extract_body_text (bare mime) = [] ∧ extract_attachments (bare mime) = []
        ∧ ∀ frames, (helper_frames + 2 ≤ frames)%nat →
            extract_body_text_within helper_frames decode_body_data_short frames (bare mime)
            = Some []
            ∧ extract_attachments_within helper_frames create_attachment_short frames
                (bare mime) = Some [])
  ∧ (∀ n mime,
        depth (nest n mime self) = (n + depth self)%nat
        ∧ extract_attachments (nest n mime self) = extract_attachments self
        ∧ (skipped self = false →
           extract_body_text (nest n mime self) = extract_body_text self)).
Proof.
  assert (Hbare : ∀ mime, extract_body_text (bare mime) = []).
  { intros mime. rewrite extract_body_text_unfold. simpl.
    destruct (is_text_plain _ || is_text_html _); reflexivity. }
  split; [|split; [|split; [|split; [|split]]]].
  - intros frames Hframes.
    split; [apply extract_body_text_within_enough|apply extract_attachments_within_enough];
      exact Hframes.
  - intros frames. apply extract_attachments_within_deep.
  - intros frames n mime Hdeep Hs. apply extract_body_text_within_nest_deep; assumption.
  - intros Hnone. pose proof (extract_attachments_none self Hnone) as Hempty.
    split; [exact Hempty|]. intros frames Hframes.
    rewrite extract_attachments_within_enough by exact Hframes. rewrite Hempty. reflexivity.
  - intros mime. split; [apply Hbare|]. split; [reflexivity|]. intros frames Hframes.
    split.
    + rewrite extract_body_text_within_enough by (cbn; lia). rewrite Hbare. reflexivity.
    + rewrite extract_attachments_within_enough by (cbn; lia). reflexivity.
  - intros n mime. split; [apply depth_nest|].
    split; [apply extract_attachments_nest|apply extract_body_text_nest].
Qed.

End StackFacts.

(** ** The filename decoder *)

Lemma decode_part_str s charset : decode_part (Py.PStr s, charset) = Some s.
Proof. reflexivity. Qed.

Lemma bytes_decode_utf8 b :
  bytes_decode (lit "utf-8") b = Some (Py.decode_utf8_ignore b).
Proof. destruct b; reflexivity. Qed.

Lemma decode_part_no_charset b :
  decode_part (Py.PBytes b, None) = Some (Py.decode_utf8_ignore b).
Proof. apply bytes_decode_utf8. Qed.

Lemma decode_part_empty_charset b :
  decode_part (Py.PBytes b, Some []) = Some (Py.decode_utf8_ignore b).
Proof. apply bytes_decode_utf8. Qed.

Lemma bytes_decode_no_codec charset b :
  no_codec charset → b ≠ [] → bytes_decode charset b = None.
Proof.
  intros [Hne Hnone] Hb. destruct b as [|c b]; [congruence|].
  unfold bytes_decode. rewrite (bool_decide_eq_false_2 _ Hne), Hnone. reflexivity.
Qed.

Lemma bytes_decode_codec charset codec b :
  charset ≠ lit "utf-8" → other_codecs charset = Some codec → b ≠ [] →
  bytes_decode charset b = codec b.
Proof.
  intros Hne Hsome Hb. destruct b as [|c b]; [congruence|].
  unfold bytes_decode. rewrite (bool_decide_eq_false_2 _ Hne), Hsome. reflexivity.
Qed.

(** A failure of the decoder: [decode_header] raises, or the decoding of
    one of the parts does. *)
Definition decode_fails (raw : str) : Prop :=
  Py.decode_header raw = None
  ∨ ∃ decoded_parts p,
      Py.decode_header raw = Some decoded_parts ∧ p ∈ decoded_parts ∧ decode_part p = None.

Lemma decode_fails_returns raw :
  decode_fails raw → decode_rfc2047_filename raw = raw ∧ raw ≠ [].
Proof.
  unfold decode_rfc2047_filename. intros Hfail. split.
  - destruct Hfail as [->|(decoded_parts & p & -> & Hin & Hnone)]; [reflexivity|].
    assert (Hm : mapM decode_part decoded_parts = None).
    { apply mapM_None. apply Exists_exists. exists p. split; assumption. }
    rewrite Hm. reflexivity.
  - intros ->. destruct Hfail as [Hnone|(decoded_parts & p & Hsome & Hin & Hnone)].
    + vm_compute in Hnone. discriminate.
    + vm_compute in Hsome. injection Hsome as <-.
      apply list_elem_of_singleton in Hin as ->. discriminate.
Qed.

Lemma decode_part_charset b charset :
  charset ≠ [] → decode_part (Py.PBytes b, Some charset) = bytes_decode charset b.
Proof. intros Hne. destruct charset; [congruence|reflexivity]. Qed.


(** ** The header resolver *)

Lemma match_unquoted_groups s m : Py.match_unquoted s = Some m → one_group m.
Proof.
  unfold Py.match_unquoted. destruct (Py.span_until 59 s) as [tok rest].
  destruct tok as [|c tok]; simpl; [discriminate|].
  intros [= <-]. right. eexists. split; [reflexivity|discriminate].
Qed.

(** A match has exactly one group, and the group is not empty. *)
Lemma match_param_value_groups s m : Py.match_param_value s = Some m → one_group m.
Proof.
  unfold Py.match_param_value. destruct s as [|c r]; [apply match_unquoted_groups|].
  destruct (c =? 34); [|apply match_unquoted_groups].
  destruct (Py.span_until 34 r) as [[|d q] [|x rest]]; try apply match_unquoted_groups.
  intros [= <-]. left. eexists. split; [reflexivity|discriminate].
Qed.

Lemma re_search_param_groups key s m : Py.re_search_param key s = Some m → one_group m.
Proof.
  assert (Hhere : ∀ s', Py.match_param_here key s' = Some m → one_group m).
  { intros s'. unfold Py.match_param_here.
    destruct (Py.match_literal_ic key s') as [r|]; [|discriminate].
    destruct (Py.skip_star r) as [|c v]; [discriminate|].
    destruct (c =? 61); [apply match_param_value_groups|discriminate]. }
  induction s as [|c s IH]; simpl.
  - destruct (Py.match_param_here key []) eqn:Hm; [|discriminate].
    intros [= <-]. apply (Hhere _ Hm).
  - destruct (Py.match_param_here key (c :: s)) eqn:Hm; [|exact IH].
    intros [= <-]. apply (Hhere _ Hm).
Qed.

Lemma re_search_param_nil key : Py.re_search_param key [] = None.
Proof.
  simpl. unfold Py.match_param_here.
  destruct key; reflexivity.
Qed.

Lemma filename_param_spec key value : filename_param key value = spec_parameter key value.
Proof.
  unfold filename_param, spec_parameter.
  destruct value as [|c value]; [rewrite re_search_param_nil; reflexivity|].
  cbn [truthy].
  destruct (Py.re_search_param key (c :: value)) as [m|] eqn:Hm; [|reflexivity].
  destruct (re_search_param_groups _ _ _ Hm) as [(q & -> & Hq)|(t & -> & Ht)].
  - destruct q; [congruence|reflexivity].
  - destruct t; [congruence|reflexivity].
Qed.

Lemma header_dict_lookup_from (key : str) (hs : list (gmap str str)) (d : gmap str str) :
  default [] (foldl (λ d h, <[Py.lower (default [] (h !! lit "name"))
                              := default [] (h !! lit "value")]> d) d hs !! key)
  = if existsb (names key) hs then last_header_value key hs else default [] (d !! key).
Proof.
  revert d. induction hs as [|h hs IH]; intros d; [reflexivity|].
  cbn [foldl]. rewrite IH. cbn [existsb last_header_value].
  fold (names key). fold (header_name h) (header_value h).
  destruct (existsb (names key) hs); [rewrite orb_true_r; reflexivity|].
  rewrite orb_false_r. unfold names.
  destruct (bool_decide_reflect (Py.lower (header_name h) = key)) as [Heq|Hne].
  - rewrite <- Heq, lookup_insert_eq. reflexivity.
  - rewrite lookup_insert_ne by exact Hne. reflexivity.
Qed.

(** The dictionary holds, under a key, the value of the last header of
    that name. *)
Lemma header_dict_lookup (key : str) (hs : list (gmap str str)) :
  default [] (header_dict hs !! key) = last_header_value key hs.
Proof.
  unfold header_dict. rewrite header_dict_lookup_from, lookup_empty. simpl.
  destruct (existsb (names key) hs) eqn:Hex; [reflexivity|].
  induction hs as [|h hs IH]; [reflexivity|].
  cbn [existsb] in Hex. apply orb_false_iff in Hex as [Hh Hhs].
  cbn [last_header_value]. fold (names key). rewrite Hhs. unfold names in Hh.
  rewrite Hh. reflexivity.
Qed.

Lemma last_header_value_last (key : str) (before : list (gmap str str)) h after :
  Py.lower (header_name h) = key →
  Forall (λ h', Py.lower (header_name h') ≠ key) after →
  last_header_value key (before ++ h :: after) = header_value h.
Proof.
  intros Hh Hafter.
  assert (Hnone : existsb (names key) after = false).
  { induction Hafter as [|h' after Hh' _ IH]; [reflexivity|].
    cbn [existsb]. rewrite IH, orb_false_r. unfold names.
    apply bool_decide_eq_false. exact Hh'. }
  induction before as [|b before IH].
  - cbn [app last_header_value]. fold (names key). rewrite Hnone.
    rewrite bool_decide_eq_true_2 by exact Hh. reflexivity.
  - cbn [app last_header_value]. fold (names key).
    rewrite existsb_app. cbn [existsb]. unfold names at 2.
    rewrite (bool_decide_eq_true_2 _ Hh), orb_true_r. exact IH.
Qed.

Lemma extract_filename_from_headers_spec node :
  extract_filename_from_headers node = spec_resolve (default [] (headers node)).
Proof.
  unfold extract_filename_from_headers, spec_resolve.
  destruct (headers node) as [[|h hs]|]; try reflexivity.
  cbn [default]. rewrite !header_dict_lookup, !filename_param_spec.
  destruct (spec_parameter (lit "filename") _); [reflexivity|].
  destruct (spec_parameter (lit "name") _); reflexivity.
Qed.

(** C6.  The header resolver looks the two headers up in a dictionary
    keyed by lower-cased name in which the last header of a name wins.
    It returns the trimmed and decoded filename parameter of
    Content-Disposition when the pattern matches there, only otherwise the
    name parameter of Content-Type, and nothing when neither matches; so
    a Content-Disposition filename wins over a Content-Type name. *)
Theorem C6_header_filename_resolver (node : MessagePayload) :
  extract_filename_from_headers node = spec_resolve (default [] (headers node))
  ∧ (∀ key hs, default [] (header_dict hs !! key) = last_header_value key hs)
  ∧ (∀ key before h after,
        Py.lower (header_name h) = key →
        Forall (λ h', Py.lower (header_name h') ≠ key) after →
        default [] (header_dict (before ++ h :: after) !! key) = header_value h)
  ∧ (∀ hs m,
        headers node = Some hs →
        Py.re_search_param (lit "filename")
          (last_header_value (lit "content-disposition") hs) = Some m →
        extract_filename_from_headers node
        = Some (decode_rfc2047_filename (Py.strip (captured m))))
  ∧ (∀ hs m,
        headers node = Some hs →
        Py.re_search_param (lit "filename")
          (last_header_value (lit "content-disposition") hs) = None →
        Py.re_search_param (lit "name")
          (last_header_value (lit "content-type") hs) = Some m →
        extract_filename_from_headers node
        = Some (decode_rfc2047_filename (Py.strip (captured m))))
  ∧ (∀ hs,
        headers node = Some hs →
        Py.re_search_param (lit "filename")
          (last_header_value (lit "content-disposition") hs) = None →
        Py.re_search_param (lit "name")
          (last_header_value (lit "content-type") hs) = None →
        extract_filename_from_headers node = None)
  ∧ (headers node = None → extract_filename_from_headers node = None).
Proof.
  split; [apply extract_filename_from_headers_spec|].
  split; [apply header_dict_lookup|].
  split; [intros key before h after Hh Hafter;
          rewrite header_dict_lookup; apply last_header_value_last; assumption|].
  rewrite extract_filename_from_headers_spec. unfold spec_resolve, spec_parameter.
  split; [intros hs m -> Hcd; cbn [from_option id]; rewrite Hcd; reflexivity|].
  split; [intros hs m -> Hcd Hct; cbn [from_option id]; rewrite Hcd, Hct; reflexivity|].
  split; [intros hs -> Hcd Hct; cbn [from_option id]; rewrite Hcd, Hct; reflexivity|].
  intros ->. reflexivity.
Qed.

(** ** The byte decoder and the encoders *)

Lemma all_bits_spec k base P :
  all_bits k base P = true → ∀ x, base ≤ x → x < base + 2 ^ N.of_nat k → P x = true.
Proof.
  revert base. induction k as [|k IH]; intros base Hall x Hlo Hhi.
  - simpl in *. replace x with base by lia. exact Hall.
  - cbn [all_bits] in Hall. apply andb_true_iff in Hall as [Hl Hr].
    rewrite Nat2N.inj_succ, N.pow_succ_r' in Hhi.
    destruct (N.lt_ge_cases x (base + 2 ^ N.of_nat k)) as [Hlt|Hge].
    + apply (IH base Hl x Hlo Hlt).
    + apply (IH _ Hr x Hge). lia.
Qed.

(** The facts about single sextets, octets and code points, by
    enumeration. *)
Lemma char_ok_all v : v < 64 → char_ok v = true.
Proof.
  assert (H : all_bits 6 0 char_ok = true) by (vm_compute; reflexivity).
  intros Hv. apply (all_bits_spec _ _ _ H); simpl; lia.
Qed.

Lemma pair_ok_all a b : a < 256 → b < 256 → pair_ok a b = true.
Proof.
  assert (H : all_bits 8 0 (λ a, all_bits 8 0 (pair_ok a)) = true)
    by (vm_compute; reflexivity).
  intros Ha Hb.
  assert (Ha' := all_bits_spec _ _ _ H a ltac:(lia) ltac:(simpl; lia)).
  apply (all_bits_spec _ _ _ Ha'); simpl; lia.
Qed.

Lemma char_facts v : v < 64 →
  (Py.b2a_table v =? 61) = false
  ∧ Py.a2b_table (Py.b2a_table v) = Some v
  ∧ encoded_char (Py.b2a_table v) = true.
Proof.
  intros Hv. pose proof (char_ok_all v Hv) as H. unfold char_ok in H.
  apply andb_true_iff in H as [H H3]. apply andb_true_iff in H as [H1 H2].
  apply negb_true_iff in H1. apply bool_decide_eq_true in H2. auto.
Qed.

Lemma a2b_base64_sextet v rest q lc p : v < 64 →
  Py.a2b_base64 (Py.b2a_table v :: rest) q lc p =
    if q =? 0 then Py.a2b_base64 rest 1 v 0
    else if q =? 1 then
      cons (N.lor (N.shiftl lc 2) (N.shiftr v 4)) <$> Py.a2b_base64 rest 2 (N.land v 15) 0
    else if q =? 2 then
      cons (N.lor (N.shiftl lc 4) (N.shiftr v 2)) <$> Py.a2b_base64 rest 3 (N.land v 3) 0
    else cons (N.lor (N.shiftl lc 6) v) <$> Py.a2b_base64 rest 0 0 0.
Proof.
  intros Hv. destruct (char_facts v Hv) as (H1 & H2 & _).
  cbn [Py.a2b_base64]. rewrite H1, H2. reflexivity.
Qed.

Lemma pair_facts a b : a < 256 → b < 256 →
  sextet0 a < 64 ∧ sextet1 a b < 64 ∧ sextet2 a b < 64 ∧ sextet3 b < 64
  ∧ N.lor (N.shiftl (sextet0 a) 2) (N.shiftr (sextet1 a b) 4) = a
  ∧ N.land (sextet1 a b) 15 = N.shiftr b 4
  ∧ N.shiftr (sextet2 a b) 2 = N.land a 15
  ∧ N.lor (N.shiftl (N.land (sextet2 a b) 3) 6) (sextet3 b) = b
  ∧ N.lor (N.shiftl (N.shiftr a 4) 4) (N.land a 15) = a.
Proof.
  intros Ha Hb. pose proof (pair_ok_all a b Ha Hb) as H. unfold pair_ok in H.
  repeat (apply andb_true_iff in H as [H ?]).
  repeat match goal with
  | H : (_ <? _) = true |- _ => apply N.ltb_lt in H
  | H : (_ =? _) = true |- _ => apply N.eqb_eq in H
  end.
  repeat split; assumption.
Qed.

(** Induction over a list three elements at a time. *)
Lemma list_ind3 {A} (P : list A → Prop) :
  P [] → (∀ a, P [a]) → (∀ a b, P [a; b]) →
  (∀ a b c l, P l → P (a :: b :: c :: l)) → ∀ l, P l.
Proof.
  intros H0 H1 H2 H3 l.
  enough (H : P l ∧ (∀ a, P (a :: l)) ∧ (∀ a b, P (a :: b :: l))) by apply H.
  induction l as [|x l (IH0 & IH1 & IH2)]; auto.
Qed.

Lemma sextet1_0 a : N.shiftl (N.land a 3) 4 = sextet1 a 0.
Proof. unfold sextet1. rewrite N.shiftr_0_l, N.lor_0_r. reflexivity. Qed.

Lemma sextet2_0 b : N.shiftl (N.land b 15) 2 = sextet2 b 0.
Proof. unfold sextet2. rewrite N.shiftr_0_l, N.lor_0_r. reflexivity. Qed.

(** The characters the encoder writes, and the decoder undoing the
    encoder on every sequence of octets. *)
Lemma b64encode_chars bs :
  Forall (λ b, b < 256) bs → Forall (λ c, encoded_char c = true) (Py.b64encode bs).
Proof.
  induction bs as [|a|a b|a b c l IH] using list_ind3; intros Hbs.
  - constructor.
  - apply Forall_cons in Hbs as [Ha _].
    destruct (pair_facts a 0 Ha ltac:(lia)) as (H0 & H1 & _).
    cbn [Py.b64encode]. rewrite sextet1_0. fold (sextet0 a).
    repeat (constructor; [first [apply char_facts; assumption|reflexivity]|]).
    constructor.
  - apply Forall_cons in Hbs as [Ha Hbs]. apply Forall_cons in Hbs as [Hb _].
    destruct (pair_facts a b Ha Hb) as (H0 & H1 & _).
    destruct (pair_facts b 0 Hb ltac:(lia)) as (_ & _ & H2 & _).
    cbn [Py.b64encode]. rewrite sextet2_0. fold (sextet0 a) (sextet1 a b).
    repeat (constructor; [first [apply char_facts; assumption|reflexivity]|]).
    constructor.
  - apply Forall_cons in Hbs as [Ha Hbs]. apply Forall_cons in Hbs as [Hb Hbs].
    apply Forall_cons in Hbs as [Hc Hbs].
    destruct (pair_facts a b Ha Hb) as (H0 & H1 & _).
    destruct (pair_facts b c Hb Hc) as (_ & _ & H2 & H3 & _).
    cbn [Py.b64encode]. fold (sextet0 a) (sextet1 a b) (sextet2 b c) (sextet3 c).
    repeat (constructor; [apply char_facts; assumption|]).
    apply IH, Hbs.
Qed.

Lemma a2b_base64_b64encode bs :
  Forall (λ b, b < 256) bs → Py.a2b_base64 (Py.b64encode bs) 0 0 0 = Some bs.
Proof.
  induction bs as [|a|a b|a b c l IH] using list_ind3; intros Hbs.
  - reflexivity.
  - apply Forall_cons in Hbs as [Ha _].
    destruct (pair_facts a 0 Ha ltac:(lia)) as (H0 & H1 & _ & _ & E1 & _).
    cbn [Py.b64encode]. rewrite sextet1_0. fold (sextet0 a).
    rewrite (a2b_base64_sextet _ _ _ _ _ H0); cbn [N.eqb Pos.eqb].
    rewrite (a2b_base64_sextet _ _ _ _ _ H1); cbn [N.eqb Pos.eqb].
    rewrite E1. reflexivity.
  - apply Forall_cons in Hbs as [Ha Hbs]. apply Forall_cons in Hbs as [Hb _].
    destruct (pair_facts a b Ha Hb) as (H0 & H1 & _ & _ & E1 & E2 & _).
    destruct (pair_facts b 0 Hb ltac:(lia)) as (_ & _ & H2 & _ & _ & _ & E3 & _ & E5).
    cbn [Py.b64encode]. rewrite sextet2_0. fold (sextet0 a) (sextet1 a b).
    rewrite (a2b_base64_sextet _ _ _ _ _ H0); cbn [N.eqb Pos.eqb].
    rewrite (a2b_base64_sextet _ _ _ _ _ H1); cbn [N.eqb Pos.eqb].
    rewrite (a2b_base64_sextet _ _ _ _ _ H2); cbn [N.eqb Pos.eqb].
    rewrite E1, E2, E3, E5. reflexivity.
  - apply Forall_cons in Hbs as [Ha Hbs]. apply Forall_cons in Hbs as [Hb Hbs].
    apply Forall_cons in Hbs as [Hc Hbs].
    destruct (pair_facts a b Ha Hb) as (H0 & H1 & _ & _ & E1 & E2 & _).
    destruct (pair_facts b c Hb Hc) as (_ & _ & H2 & H3 & _ & _ & E3 & E4 & E5).
    cbn [Py.b64encode]. fold (sextet0 a) (sextet1 a b) (sextet2 b c) (sextet3 c).
    rewrite (a2b_base64_sextet _ _ _ _ _ H0); cbn [N.eqb Pos.eqb].
    rewrite (a2b_base64_sextet _ _ _ _ _ H1); cbn [N.eqb Pos.eqb].
    rewrite (a2b_base64_sextet _ _ _ _ _ H2); cbn [N.eqb Pos.eqb].
    rewrite (a2b_base64_sextet _ _ _ _ _ H3); cbn [N.eqb Pos.eqb].
    rewrite E1, E2, E3, E4, E5, (IH Hbs). reflexivity.
Qed.

Lemma encoded_char_facts c : encoded_char c = true →
  c < 128 ∧ (Py.urlsafe_encode_translate c <? 128) = true
  ∧ Py.urlsafe_translate (Py.urlsafe_encode_translate c) = c
  ∧ c ≠ 63 ∧ Py.is_linebreak c = false.
Proof.
  unfold encoded_char. intros H. repeat (apply andb_true_iff in H as [H ?]).
  repeat match goal with
  | H : negb _ = true |- _ => apply negb_true_iff in H
  end.
  repeat match goal with
  | H : (_ =? _) = true |- _ => apply N.eqb_eq in H
  | H : (_ =? _) = false |- _ => apply N.eqb_neq in H
  end.
  apply N.ltb_lt in H. auto.
Qed.

Lemma urlsafe_translate_urlsafe_b64encode bs :
  Forall (λ b, b < 256) bs →
  Py.urlsafe_translate <$> Py.urlsafe_b64encode bs = Py.b64encode bs.
Proof.
  intros Hbs. unfold Py.urlsafe_b64encode. rewrite <- list_fmap_compose.
  induction (b64encode_chars bs Hbs) as [|c l Hc _ IH]; [reflexivity|].
  cbn [fmap list_fmap compose]. f_equal; [apply encoded_char_facts, Hc|exact IH].
Qed.

Lemma urlsafe_b64encode_ascii bs :
  Forall (λ b, b < 256) bs → forallb (λ c, c <? 128) (Py.urlsafe_b64encode bs) = true.
Proof.
  intros Hbs. unfold Py.urlsafe_b64encode.
  induction (b64encode_chars bs Hbs) as [|c l Hc _ IH]; [reflexivity|].
  cbn [fmap list_fmap forallb].
  rewrite (proj1 (proj2 (encoded_char_facts c Hc))). exact IH.
Qed.

Lemma urlsafe_b64decode_urlsafe_b64encode bs :
  Forall (λ b, b < 256) bs →
  Py.urlsafe_b64decode (Py.urlsafe_b64encode bs) = Some bs.
Proof.
  intros Hbs. unfold Py.urlsafe_b64decode.
  rewrite (urlsafe_b64encode_ascii bs Hbs), (urlsafe_translate_urlsafe_b64encode bs Hbs).
  apply a2b_base64_b64encode, Hbs.
Qed.

Lemma bmp_char_ok_all c : c < 65536 → bmp_char_ok c = true.
Proof.
  assert (H : all_bits 16 0 bmp_char_ok = true) by (vm_compute; reflexivity).
  intros Hc. apply (all_bits_spec _ _ _ H); simpl; lia.
Qed.

Lemma lead4_ok_all hi : hi < 512 → lead4_ok hi = true.
Proof.
  assert (H : all_bits 9 0 lead4_ok = true) by (vm_compute; reflexivity).
  intros Hc. apply (all_bits_spec _ _ _ H); simpl; lia.
Qed.

Lemma cont_ok_all x : x < 64 → cont_ok x = true.
Proof.
  assert (H : all_bits 6 0 cont_ok = true) by (vm_compute; reflexivity).
  intros Hc. apply (all_bits_spec _ _ _ H); simpl; lia.
Qed.

Lemma land_63_lt x : N.land x 63 < 64.
Proof. change 63 with (N.ones 6). rewrite N.land_ones. apply N.mod_lt. discriminate. Qed.

Lemma cont_facts x :
  Py.is_cont (N.lor 128 (N.land x 63)) = true
  ∧ N.land (N.lor 128 (N.land x 63)) 63 = N.land x 63.
Proof.
  pose proof (cont_ok_all _ (land_63_lt x)) as H. unfold cont_ok in H.
  apply andb_true_iff in H as [H1 H2]. apply N.eqb_eq in H2. auto.
Qed.

(** A number is its bits from the sixth on and its six low bits. *)
Lemma split6 x : N.lor (N.shiftl (N.shiftr x 6) 6) (N.land x 63) = x.
Proof. change 63 with (N.ones 6). rewrite <- N.ldiff_ones_r. apply N.lor_ldiff_and. Qed.

Lemma join4 c :
  N.lor (N.shiftl (N.shiftr c 18) 18)
    (N.lor (N.shiftl (N.land (N.shiftr c 12) 63) 12)
       (N.lor (N.shiftl (N.land (N.shiftr c 6) 63) 6) (N.land c 63))) = c.
Proof.
  pose proof (split6 c) as H0. pose proof (split6 (N.shiftr c 6)) as H1.
  pose proof (split6 (N.shiftr c 12)) as H2.
  rewrite N.shiftr_shiftr in H1, H2.
  change (6 + 6) with 12 in H1. change (12 + 6) with 18 in H2.
  rewrite <- H2 in H1. rewrite <- H1 in H0.
  rewrite !N.shiftl_lor, !N.shiftl_shiftl in H0.
  change (6 + 6) with 12 in H0. change (12 + 6) with 18 in H0.
  rewrite <- !N.lor_assoc in H0. exact H0.
Qed.

(** The UTF-8 decoder reads the octets of an encoded code point back as
    that code point. *)
Lemma decode_utf8_ignore_char c cb rest :
  Py.utf8_encode_char c = Some cb →
  Py.decode_utf8_ignore (cb ++ rest) = c :: Py.decode_utf8_ignore rest.
Proof.
  unfold Py.utf8_encode_char. intros Henc.
  destruct (N.lt_ge_cases c 65536) as [Hbmp|Hhigh].
  - pose proof (bmp_char_ok_all c Hbmp) as Hok. unfold bmp_char_ok in Hok.
    destruct (c <? 128) eqn:E1.
    { injection Henc as <-. cbn [app Py.decode_utf8_ignore]. rewrite E1. reflexivity. }
    destruct (c <? 2048) eqn:E2.
    { injection Henc as <-. cbn zeta in Hok.
      repeat (apply andb_true_iff in Hok as [Hok ?]).
      repeat match goal with
      | H : negb _ = true |- _ => apply negb_true_iff in H
      | H : (_ =? _) = true |- _ => apply N.eqb_eq in H
      end.
      cbn [app Py.decode_utf8_ignore].
      repeat match goal with H : _ = _ |- _ => rewrite H end. reflexivity. }
    destruct ((55296 <=? c) && (c <? 57344)) eqn:E3; [discriminate|].
    apply N.ltb_lt in Hbmp. rewrite Hbmp in Henc.
    injection Henc as <-. cbn zeta in Hok.
    repeat (apply andb_true_iff in Hok as [Hok ?]).
    repeat match goal with
    | H : negb _ = true |- _ => apply negb_true_iff in H
    | H : (_ =? _) = true |- _ => apply N.eqb_eq in H
    end.
    cbn [app Py.decode_utf8_ignore].
    repeat match goal with H : _ = _ |- _ => rewrite H end. reflexivity.
  - assert (E1 : (c <? 128) = false) by (apply N.ltb_ge; lia).
    assert (E2 : (c <? 2048) = false) by (apply N.ltb_ge; lia).
    assert (E3 : ((55296 <=? c) && (c <? 57344)) = false).
    { apply andb_false_iff. right. apply N.ltb_ge. lia. }
    assert (E4 : (c <? 65536) = false) by (apply N.ltb_ge; lia).
    rewrite E1, E2, E3, E4 in Henc.
    destruct (c <? 1114112) eqn:E5; [|discriminate].
    apply N.ltb_lt in E5. injection Henc as <-.
    assert (Hhi : 16 ≤ N.shiftr c 12 < 272).
    { rewrite N.shiftr_div_pow2. change (2 ^ 12) with 4096. split.
      - apply N.div_le_lower_bound; lia.
      - apply N.Div0.div_lt_upper_bound; lia. }
    pose proof (lead4_ok_all (N.shiftr c 12) ltac:(lia)) as Hok.
    unfold lead4_ok in Hok.
    replace ((16 <=? N.shiftr c 12) && (N.shiftr c 12 <? 272)) with true in Hok.
    2:{ symmetry. apply andb_true_iff. split; [apply N.leb_le|apply N.ltb_lt]; lia. }
    cbn zeta in Hok. rewrite N.shiftr_shiftr in Hok. change (12 + 6) with 18 in Hok.
    repeat (apply andb_true_iff in Hok as [Hok ?]).
    repeat match goal with
    | H : negb _ = true |- _ => apply negb_true_iff in H
    | H : (_ =? _) = true |- _ => apply N.eqb_eq in H
    end.
    destruct (cont_facts (N.shiftr c 6)) as [C2 M2].
    destruct (cont_facts c) as [C3 M3].
    destruct (cont_facts (N.shiftr c 12)) as [_ M1].
    cbn [app Py.decode_utf8_ignore].
    repeat match goal with H : (_ <? _) = _ |- _ => rewrite H end.
    repeat match goal with H : (_ || _) = _ |- _ => rewrite H end.
    repeat match goal with H : Py.second_ok _ _ = _ |- _ => rewrite H end.
    rewrite C2, C3. cbn [negb].
    f_equal. unfold Py.cp4. rewrite M1, M2, M3.
    match goal with H : N.land _ 7 = _ |- _ => rewrite H end.
    apply join4.
Qed.

Lemma decode_utf8_ignore_utf8_encode text bs :
  Py.utf8_encode text = Some bs → Py.decode_utf8_ignore bs = text.
Proof.
  unfold Py.utf8_encode. revert bs.
  induction text as [|c text IH]; intros bs Henc.
  - injection Henc as <-. reflexivity.
  - cbn [mapM] in Henc.
    destruct (Py.utf8_encode_char c) as [cb|] eqn:Ec; [|discriminate].
    cbn in Henc.
    destruct (mapM Py.utf8_encode_char text) as [l|] eqn:El; [|discriminate].
    cbn in Henc. injection Henc as <-.
    cbn. rewrite (decode_utf8_ignore_char _ _ _ Ec).
    f_equal. apply IH. reflexivity.
Qed.

Lemma utf8_encode_char_bytes c cb :
  Py.utf8_encode_char c = Some cb → Forall (λ b, b < 256) cb.
Proof.
  intros Henc.
  assert (Hcont : ∀ x, N.lor 128 (N.land x 63) < 256).
  { intros x. destruct (cont_facts x) as [H _]. unfold Py.is_cont in H.
    apply andb_true_iff in H as [_ H]. apply N.ltb_lt in H. lia. }
  unfold Py.utf8_encode_char in Henc.
  destruct (c <? 128) eqn:E1.
  { injection Henc as <-. apply N.ltb_lt in E1. repeat constructor. lia. }
  destruct (c <? 2048) eqn:E2.
  { injection Henc as <-. pose proof (bmp_char_ok_all c) as Hok.
    apply N.ltb_lt in E2. specialize (Hok ltac:(lia)). unfold bmp_char_ok in Hok.
    rewrite E1 in Hok. apply N.ltb_lt in E2. rewrite E2 in Hok. cbn zeta in Hok.
    repeat (apply andb_true_iff in Hok as [Hok ?]).
    repeat match goal with H : (_ <? _) = true |- _ => apply N.ltb_lt in H end.
    repeat constructor; [lia|apply Hcont]. }
  destruct ((55296 <=? c) && (c <? 57344)) eqn:E3; [discriminate|].
  destruct (c <? 65536) eqn:E4.
  { injection Henc as <-. pose proof (bmp_char_ok_all c) as Hok.
    apply N.ltb_lt in E4. specialize (Hok ltac:(lia)). unfold bmp_char_ok in Hok.
    rewrite E1, E2, E3 in Hok. cbn zeta in Hok.
    repeat (apply andb_true_iff in Hok as [Hok ?]).
    repeat match goal with H : (_ <? _) = true |- _ => apply N.ltb_lt in H end.
    repeat constructor; [lia|apply Hcont|apply Hcont]. }
  destruct (c <? 1114112) eqn:E5; [|discriminate].
  injection Henc as <-. apply N.ltb_lt in E5. apply N.ltb_ge in E4.
  assert (Hhi : 16 ≤ N.shiftr c 12 < 272).
  { rewrite N.shiftr_div_pow2. change (2 ^ 12) with 4096. split.
    - apply N.div_le_lower_bound; lia.
    - apply N.Div0.div_lt_upper_bound; lia. }
  pose proof (lead4_ok_all (N.shiftr c 12) ltac:(lia)) as Hok.
  unfold lead4_ok in Hok.
  replace ((16 <=? N.shiftr c 12) && (N.shiftr c 12 <? 272)) with true in Hok.
  2:{ symmetry. apply andb_true_iff. split; [apply N.leb_le|apply N.ltb_lt]; lia. }
  cbn zeta in Hok. rewrite N.shiftr_shiftr in Hok. change (12 + 6) with 18 in Hok.
  repeat (apply andb_true_iff in Hok as [Hok ?]).
  match goal with H : negb (_ || _) = true |- _ =>
    apply negb_true_iff, orb_false_iff in H as [_ H]; apply N.leb_gt in H end.
  repeat constructor; [lia|apply Hcont..].
Qed.

Lemma utf8_encode_bytes text bs :
  Py.utf8_encode text = Some bs → Forall (λ b, b < 256) bs.
Proof.
  unfold Py.utf8_encode. revert bs.
  induction text as [|c text IH]; intros bs Henc.
  - injection Henc as <-. constructor.
  - cbn [mapM] in Henc.
    destruct (Py.utf8_encode_char c) as [cb|] eqn:Ec; [|discriminate].
    cbn in Henc.
    destruct (mapM Py.utf8_encode_char text) as [l|] eqn:El; [|discriminate].
    cbn in Henc. injection Henc as <-.
    cbn. apply Forall_app. split; [apply (utf8_encode_char_bytes _ _ Ec)|].
    apply IH. reflexivity.
Qed.

(** X2.  On the URL-safe base64 encoding of any sequence of octets,
    padded as the encoder pads it, [decode_base64_text] does not take its
    error path: it returns the lossy UTF-8 decoding of these octets. *)
Theorem decode_base64_text_urlsafe_b64encode bs :
  Forall (λ b, b < 256) bs →
  decode_base64_text (Py.urlsafe_b64encode bs) = Py.decode_utf8_ignore bs.
Proof.
  intros Hbs. unfold decode_base64_text.
  rewrite (urlsafe_b64decode_urlsafe_b64encode bs Hbs). reflexivity.
Qed.

(** X1.  Round trip of the test-suite, for every text: when [text]
    can be encoded in UTF-8 (it holds no surrogate and no number above
    U+10FFFF), [decode_base64_text] gives [text] back from the URL-safe
    base64 encoding of its UTF-8 encoding. *)
Theorem decode_base64_text_round_trip text bs :
  Py.utf8_encode text = Some bs →
  decode_base64_text (Py.urlsafe_b64encode bs) = text.
Proof.
  intros Henc. unfold decode_base64_text.
  rewrite (urlsafe_b64decode_urlsafe_b64encode bs (utf8_encode_bytes _ _ Henc)).
  apply decode_utf8_ignore_utf8_encode, Henc.
Qed.

(** X3.  A character that is not ASCII anywhere in the argument makes
    [decode_base64_text] return the empty string: the library raises
    before it decodes anything, and the rest of the data is lost with
    it. *)
Theorem decode_base64_text_non_ascii data c :
  c ∈ data → 128 ≤ c → decode_base64_text data = [].
Proof.
  intros Hin Hc. unfold decode_base64_text, Py.urlsafe_b64decode.
  replace (forallb (λ c, c <? 128) data) with false; [reflexivity|].
  symmetry. apply not_true_iff_false. intros Hall.
  rewrite forallb_forall in Hall. apply list_elem_of_In in Hin.
  specialize (Hall c Hin). apply N.ltb_lt in Hall. lia.
Qed.

Lemma urlsafe_translate_pad c : (Py.urlsafe_translate c =? 61) = (c =? 61).
Proof.
  unfold Py.urlsafe_translate.
  destruct (c =? 45) eqn:E1; [apply N.eqb_eq in E1; subst; reflexivity|].
  destruct (c =? 95) eqn:E2; [apply N.eqb_eq in E2; subst; reflexivity|].
  reflexivity.
Qed.

Lemma a2b_base64_skip c s1 s2 : Py.a2b_table c = None → c ≠ 61 →
  ∀ q lc p, Py.a2b_base64 (s1 ++ c :: s2) q lc p = Py.a2b_base64 (s1 ++ s2) q lc p.
Proof.
  intros Hc Hpad. induction s1 as [|a s1 IH]; intros q lc p.
  - cbn [app Py.a2b_base64]. apply N.eqb_neq in Hpad. rewrite Hpad, Hc. reflexivity.
  - rewrite <- !app_comm_cons. cbn [Py.a2b_base64].
    destruct (a =? 61); [rewrite IH; reflexivity|].
    destruct (Py.a2b_table a) as [v|]; [|apply IH]. rewrite !IH. reflexivity.
Qed.

(** X5.  An ASCII character that is neither the pad nor in one of the
    two base64 alphabets, a line break or a blank for instance, is
    ignored wherever it stands. *)
Theorem decode_base64_text_ignores s1 c s2 :
  c < 128 → c ≠ 61 → in_alphabet c = false →
  decode_base64_text (s1 ++ c :: s2) = decode_base64_text (s1 ++ s2).
Proof.
  intros Hascii Hpad Hc. unfold decode_base64_text, Py.urlsafe_b64decode.
  rewrite !forallb_app. cbn [forallb]. apply N.ltb_lt in Hascii. rewrite Hascii.
  cbn [andb]. rewrite !fmap_app, fmap_cons.
  unfold in_alphabet in Hc.
  destruct (Py.a2b_table (Py.urlsafe_translate c)) eqn:Et; [discriminate|].
  rewrite (a2b_base64_skip _ _ _ Et); [reflexivity|].
  intros E. apply N.eqb_eq in E. rewrite urlsafe_translate_pad in E.
  apply N.eqb_eq in E. contradiction.
Qed.

Lemma urlsafe_translate_idemp c :
  Py.urlsafe_translate (Py.urlsafe_translate c) = Py.urlsafe_translate c.
Proof.
  unfold Py.urlsafe_translate.
  destruct (c =? 45) eqn:E1; [reflexivity|].
  destruct (c =? 95) eqn:E2; [reflexivity|]. rewrite E1, E2. reflexivity.
Qed.

Lemma urlsafe_translate_ascii c : (Py.urlsafe_translate c <? 128) = (c <? 128).
Proof.
  unfold Py.urlsafe_translate.
  destruct (c =? 45) eqn:E1; [apply N.eqb_eq in E1; subst; reflexivity|].
  destruct (c =? 95) eqn:E2; [apply N.eqb_eq in E2; subst; reflexivity|].
  reflexivity.
Qed.

(** X6.  The standard alphabet is accepted as well as the URL-safe one:
    writing [+] for [-] and [/] for [_] in the argument, everywhere or in
    places, does not change the result. *)
Theorem decode_base64_text_standard_alphabet data :
  decode_base64_text (Py.urlsafe_translate <$> data) = decode_base64_text data.
Proof.
  unfold decode_base64_text, Py.urlsafe_b64decode.
  replace (forallb (λ c, c <? 128) (Py.urlsafe_translate <$> data))
    with (forallb (λ c, c <? 128) data).
  2:{ induction data as [|c data IH]; [reflexivity|].
      cbn [fmap list_fmap forallb]. rewrite urlsafe_translate_ascii. f_equal. exact IH. }
  replace (Py.urlsafe_translate <$> (Py.urlsafe_translate <$> data))
    with (Py.urlsafe_translate <$> data); [reflexivity|].
  rewrite <- list_fmap_compose. apply list_fmap_ext. intros _ c _.
  cbn. symmetry. apply urlsafe_translate_idemp.
Qed.

Lemma a2b_base64_unpadded s : 61 ∉ s →
  ∀ q lc p, q < 4 →
  (((N.to_nat q + sextets s) mod 4 ≠ 0)%nat →
     Py.a2b_base64 (Py.urlsafe_translate <$> s) q lc p = None)
  ∧ (((N.to_nat q + sextets s) mod 4 = 0)%nat →
     is_Some (Py.a2b_base64 (Py.urlsafe_translate <$> s) q lc p)).
Proof.
  unfold sextets.
  induction s as [|c s IH]; intros Hpad q lc p Hq.
  - cbn [fmap list_fmap Py.a2b_base64 List.filter length].
    rewrite Nat.add_0_r.
    assert (Hcases : q = 0 ∨ q = 1 ∨ q = 2 ∨ q = 3) by lia.
    destruct Hcases as [-> | [-> | [-> | ->]]]; cbn; split; intros H; try done; eauto.
  - apply not_elem_of_cons in Hpad as [Hc Hpad]. specialize (IH Hpad).
    cbn [fmap list_fmap Py.a2b_base64 List.filter].
    rewrite urlsafe_translate_pad.
    replace (c =? 61) with false by (symmetry; apply N.eqb_neq; congruence).
    assert (Ha : in_alphabet c = match Py.a2b_table (Py.urlsafe_translate c) with
                                 | Some _ => true | None => false end) by reflexivity.
    destruct (Py.a2b_table (Py.urlsafe_translate c)) as [v|]; rewrite Ha;
      [|apply IH, Hq].
    cbn [length].
    assert (Hcases : q = 0 ∨ q = 1 ∨ q = 2 ∨ q = 3) by lia.
    destruct Hcases as [-> | [-> | [-> | ->]]]; cbn [N.eqb Pos.eqb].
    + replace (N.to_nat 0 + S (length (List.filter in_alphabet s)))%nat
        with (N.to_nat 1 + length (List.filter in_alphabet s))%nat by lia.
      apply IH. lia.
    + replace (N.to_nat 1 + S (length (List.filter in_alphabet s)))%nat
        with (N.to_nat 2 + length (List.filter in_alphabet s))%nat by lia.
      destruct (IH 2 (N.land v 15) 0 ltac:(lia)) as [IH1 IH2].
      split; intros H.
      * rewrite (IH1 H). reflexivity.
      * destruct (IH2 H) as [r ->]. cbn. eauto.
    + replace (N.to_nat 2 + S (length (List.filter in_alphabet s)))%nat
        with (N.to_nat 3 + length (List.filter in_alphabet s))%nat by lia.
      destruct (IH 3 (N.land v 3) 0 ltac:(lia)) as [IH1 IH2].
      split; intros H.
      * rewrite (IH1 H). reflexivity.
      * destruct (IH2 H) as [r ->]. cbn. eauto.
    + replace (N.to_nat 3 + S (length (List.filter in_alphabet s)))%nat
        with (N.to_nat 0 + length (List.filter in_alphabet s) + 1 * 4)%nat by lia.
      rewrite Nat.Div0.mod_add.
      destruct (IH 0 0 0 ltac:(lia)) as [IH1 IH2].
      split; intros H.
      * rewrite (IH1 H). reflexivity.
      * destruct (IH2 H) as [r ->]. cbn. eauto.
Qed.

(** X4.  Data without padding: for ASCII data without [=], the library
    raises exactly when the number of alphabet characters is not a
    multiple of four, and [decode_base64_text] then returns the empty
    string; nothing of a text whose padding was stripped is recovered. *)
Theorem decode_base64_text_unpadded data :
  Forall (λ c, c < 128) data → 61 ∉ data →
  (Py.urlsafe_b64decode data = None ↔ (sextets data mod 4 ≠ 0)%nat)
  ∧ ((sextets data mod 4 ≠ 0)%nat → decode_base64_text data = []).
Proof.
  intros Hascii Hpad.
  assert (Hall : forallb (λ c, c <? 128) data = true).
  { apply forallb_forall. intros c Hc. apply N.ltb_lt.
    rewrite Forall_forall in Hascii. apply Hascii, list_elem_of_In, Hc. }
  destruct (a2b_base64_unpadded data Hpad 0 0 0 ltac:(lia)) as [H1 H2].
  cbn [N.to_nat Nat.add] in H1, H2.
  assert (Hiff : Py.urlsafe_b64decode data = None ↔ (sextets data mod 4 ≠ 0)%nat).
  { unfold Py.urlsafe_b64decode. rewrite Hall. split; [|exact H1].
    intros Hnone Hz. destruct (H2 Hz) as [r Hr]. congruence. }
  split; [exact Hiff|]. intros Hne. unfold decode_base64_text.
  rewrite (proj2 Hiff Hne). reflexivity.
Qed.

(** ** Further facts about the two extractions *)

Lemma create_attachment_Some self a :
  create_attachment self = Some a →
  skipped self = true
  ∧ attachment_id (body self) = Some (att_attachment_id a)
  ∧ att_attachment_id a ≠ [] ∧ att_file_name a ≠ []
  ∧ att_mime_type a = mime_type self ∧ att_size a = size (body self).
Proof.
  rewrite create_attachment_spec. unfold spec_attachment, skipped.
  destruct (attachment_id (body self)) as [[|c aid]|]; try discriminate.
  destruct (spec_resolved_filename self) as [[|d name]|]; try discriminate.
  intros [= <-]. simpl. repeat split. all: discriminate.
Qed.

Lemma length_omap_le {A B} (f : A → option B) l : (length (omap f l) ≤ length l)%nat.
Proof.
  induction l as [|x l IH]; csimpl; [lia|]. destruct (f x); csimpl; lia.
Qed.

(** X7.  Every attachment that [extract_attachments] lists has a non-empty
    id and a non-empty file name, and is the attachment of a node of the
    tree, whose id, MIME type and size it carries; there are at most as
    many attachments as nodes. *)
Theorem extract_attachments_well_formed (self : MessagePayload) :
  (length (extract_attachments self) ≤ length (preorder self))%nat
  ∧ ∀ a, a ∈ extract_attachments self →
      att_attachment_id a ≠ [] ∧ att_file_name a ≠ []
      ∧ ∃ node, node ∈ preorder self ∧ create_attachment node = Some a
                ∧ attachment_id (body node) = Some (att_attachment_id a)
                ∧ att_mime_type a = mime_type node ∧ att_size a = size (body node).
Proof.
  rewrite extract_attachments_preorder. split; [apply length_omap_le|].
  intros a Ha. apply list_elem_of_omap in Ha as (node & Hnode & Hc).
  destruct (create_attachment_Some _ _ Hc) as (_ & Hid & Hne & Hname & Hm & Hs).
  split; [exact Hne|]. split; [exact Hname|]. exists node. auto.
Qed.

(** X8.  A non-empty [filename] field is the file name as it stands: the
    headers are not consulted, whatever they are, and the field is neither
    trimmed nor decoded. *)
Theorem create_attachment_filename_field (self : MessagePayload) (name : str) :
  filename self = Some name → name ≠ [] →
  (∀ hs, create_attachment (with_headers hs self) = create_attachment self)
  ∧ (∀ aid, attachment_id (body self) = Some aid → aid ≠ [] →
       create_attachment self
       = Some (mkAttachment aid name (mime_type self) (size (body self)))).
Proof.
  intros Hname Hne. destruct name as [|c name]; [congruence|]. split.
  - intros hs. unfold create_attachment, with_headers.
    cbn [body filename headers mime_type].
    rewrite Hname. reflexivity.
  - intros aid Hid Haid. destruct aid as [|d aid]; [congruence|].
    unfold create_attachment. rewrite Hid, Hname. reflexivity.
Qed.

(** X9.  A child for which [create_attachment] gives an attachment never
    contributes to the body text of its parent: the pass over the children
    is the pass over the other children. *)
Theorem attachment_not_in_body_text (self part : MessagePayload) (a : Attachment)
    (before after : list MessagePayload) :
  create_attachment part = Some a →
  parts self = Some (before ++ part :: after) →
  extract_body_text self = body_loop (before ++ after) [] []
  ∧ ∀ plain html,
      body_loop (before ++ part :: after) plain html
      = body_loop (before ++ after) plain html.
Proof.
  intros Hc Hps. destruct (create_attachment_Some _ _ Hc) as (Hs & _).
  split; [|intros plain html; apply body_loop_remove_skipped, Hs].
  rewrite (extract_body_text_container self _ Hps).
  - apply body_loop_remove_skipped, Hs.
  - destruct before; discriminate.
Qed.

(** X10.  The skip is made on children only.  The [attachment_id] of the
    node on which [extract_body_text] is called is never read, so a
    single-part text message that is itself a named attachment gives both
    an attachment and, as body text, the decoding of its data. *)
Theorem root_attachment_id_is_not_read (self : MessagePayload) :
  extract_body_text (without_attachment_id self) = extract_body_text self
  ∧ ∀ a d,
      children self = [] → is_text_plain self || is_text_html self = true →
      data (body self) = Some d → create_attachment self = Some a →
      extract_attachments self = [a] ∧ extract_body_text self = decode_base64_text d.
Proof.
  split; [apply extract_body_text_without_attachment_id|].
  intros a d Hleaf Htext Hd Hc. split.
  - rewrite extract_attachments_unfold, Hc, Hleaf. reflexivity.
  - rewrite (extract_body_text_leaf _ Hleaf), Htext, decode_body_data_spec, Hd.
    reflexivity.
Qed.

Lemma body_loop_all_skipped cs plain html :
  Forall (λ c, skipped c = true) cs →
  body_loop cs plain html = if truthy plain then plain else html.
Proof.
  induction 1 as [|c cs Hc _ IH]; [reflexivity|].
  rewrite (body_loop_skip _ _ _ _ Hc). exact IH.
Qed.

(** X11.  A node with children all of which are skipped has the empty
    body text: the data of the node itself is not decoded, even when its
    MIME type is text/plain or text/html. *)
Theorem extract_body_text_only_attachments (self : MessagePayload)
    (cs : list MessagePayload) :
  parts self = Some cs → cs ≠ [] → Forall (λ c, skipped c = true) cs →
  extract_body_text self = [].
Proof.
  intros Hps Hne Hall.
  rewrite (extract_body_text_container self cs Hps Hne).
  apply (body_loop_all_skipped cs [] [] Hall).
Qed.

(** The pass depends on a child through four values only. *)
Lemma body_loop_fmap (f : MessagePayload → MessagePayload) cs :
  Forall (λ c, skipped (f c) = skipped c ∧ is_text_plain (f c) = is_text_plain c
               ∧ is_text_html (f c) = is_text_html c
               ∧ extract_body_text (f c) = extract_body_text c) cs →
  ∀ plain html, body_loop (f <$> cs) plain html = body_loop cs plain html.
Proof.
  induction 1 as [|c cs (Hs & Hp & Hh & Ht) _ IH]; intros plain html; [reflexivity|].
  cbn [fmap list_fmap body_loop]. fold (skipped c) (skipped (f c)).
  rewrite Hs, Hp, Hh, Ht. fold (@fmap list _ _ _ f cs). rewrite !IH. reflexivity.
Qed.

(** X12.  The body text does not depend on the filename, the headers or
    the size of any node: it is a function of the MIME types, the
    attachment ids, the data and the shape of the tree. *)
Theorem extract_body_text_erase_meta (self : MessagePayload) :
  extract_body_text (erase_meta self) = extract_body_text self.
Proof.
  induction self as [self IH] using MessagePayload_tree_ind.
  rewrite !extract_body_text_unfold.
  destruct self as [mime name b [[|p ps]|] hs]; unfold children in IH;
    cbn [parts default] in IH; try reflexivity.
  cbn [erase_meta parts mime_type body].
  change (body_loop (erase_meta <$> (p :: ps)) [] [] = body_loop (p :: ps) [] []).
  apply body_loop_fmap. eapply Forall_impl; [exact IH|].
  intros c Hc. split; [destruct c as [? ? [? ? ?] ? ?]; reflexivity|].
  split; [destruct c; reflexivity|]. split; [destruct c; reflexivity|exact Hc].
Qed.

Lemma create_attachment_erase_data self :
  create_attachment (erase_data self) = create_attachment self.
Proof.
  destruct self as [mime name [aid d sz] ps hs]. unfold create_attachment.
  cbn [erase_data body attachment_id filename headers mime_type size].
  destruct aid as [[|c aid]|]; try reflexivity.
Qed.

(** X13.  The attachments do not depend on the body data of any node. *)
Theorem extract_attachments_erase_data (self : MessagePayload) :
  extract_attachments (erase_data self) = extract_attachments self.
Proof.
  induction self as [self IH] using MessagePayload_tree_ind.
  rewrite !extract_attachments_unfold, create_attachment_erase_data. f_equal.
  destruct self as [mime name b [ps|] hs]; unfold children in *; simpl in *;
    [|reflexivity].
  induction IH as [|c cs Hc _ IHcs]; [reflexivity|].
  csimpl. rewrite Hc, IHcs. reflexivity.
Qed.

(** ** Where the body text comes from *)

Lemma body_loop_leaves cs :
  Forall (λ c, ∃ leaves, leaves `sublist_of` preorder c
                 ∧ Forall text_leaf leaves
                 ∧ extract_body_text c = concat (decode_body_data <$> leaves)) cs →
  ∀ pre plain_leaves html_leaves,
    plain_leaves `sublist_of` pre → html_leaves `sublist_of` pre →
    Forall text_leaf plain_leaves → Forall text_leaf html_leaves →
    ∃ leaves, leaves `sublist_of` pre ++ (cs ≫= preorder)
      ∧ Forall text_leaf leaves
      ∧ body_loop cs (concat (decode_body_data <$> plain_leaves))
          (concat (decode_body_data <$> html_leaves))
        = concat (decode_body_data <$> leaves).
Proof.
  induction 1 as [|c cs (Lc & Hsub & Hleaf & Htext) _ IH];
    intros pre Lp Lh Hp Hh Hlp Hlh.
  - cbn [body_loop]. rewrite app_nil_r.
    destruct (truthy _); [exists Lp|exists Lh]; auto.
  - rewrite bind_cons, app_assoc. cbn [body_loop].
    assert (Hp' : Lp `sublist_of` pre ++ preorder c) by (apply sublist_inserts_r, Hp).
    assert (Hh' : Lh `sublist_of` pre ++ preorder c) by (apply sublist_inserts_r, Hh).
    assert (Hpc : Lp ++ Lc `sublist_of` pre ++ preorder c) by (apply sublist_app; auto).
    assert (Hhc : Lh ++ Lc `sublist_of` pre ++ preorder c) by (apply sublist_app; auto).
    assert (Hlpc : Forall text_leaf (Lp ++ Lc)) by (apply Forall_app; auto).
    assert (Hlhc : Forall text_leaf (Lh ++ Lc)) by (apply Forall_app; auto).
    assert (Hplain : concat (decode_body_data <$> Lp) ++ extract_body_text c
                     = concat (decode_body_data <$> (Lp ++ Lc))).
    { rewrite Htext, fmap_app, concat_app. reflexivity. }
    assert (Hhtml : concat (decode_body_data <$> Lh) ++ extract_body_text c
                    = concat (decode_body_data <$> (Lh ++ Lc))).
    { rewrite Htext, fmap_app, concat_app. reflexivity. }
    destruct (opt_truthy (attachment_id (body c))); [apply IH; assumption|].
    destruct (is_text_plain c); [rewrite Hplain; apply IH; assumption|].
    destruct (is_text_html c); [rewrite Hhtml; apply IH; assumption|].
    destruct (truthy (extract_body_text c)); [|apply IH; assumption].
    destruct (negb _ && negb _); [|rewrite Hplain; apply IH; assumption].
    exists Lc. split; [|auto].
    apply sublist_inserts_r, sublist_inserts_l, Hsub.
Qed.

(** X21.  The body text is made of the texts of text leaves, in document
    order: there is a list of nodes, taken in their order from the nodes
    of the tree in pre-order, each of them a node without parts whose MIME
    type is text/plain or text/html, such that the body text is the
    concatenation of the decoded data of these nodes.  No text is
    repeated, reordered or taken from elsewhere. *)
Theorem extract_body_text_from_leaves (self : MessagePayload) :
  ∃ leaves, leaves `sublist_of` preorder self
    ∧ Forall text_leaf leaves
    ∧ extract_body_text self = concat (decode_body_data <$> leaves).
Proof.
  induction self as [self IH] using MessagePayload_tree_ind.
  rewrite preorder_unfold, extract_body_text_unfold.
  destruct (parts self) as [[|p ps]|] eqn:Hps.
  - destruct (is_text_plain self || is_text_html self) eqn:Ht.
    + exists [self]. split; [apply sublist_skip, sublist_nil_l|].
      split; [|cbn; rewrite app_nil_r; reflexivity].
      constructor; [|constructor]. unfold text_leaf, children.
      rewrite Hps. split; [reflexivity|exact Ht].
    + exists []. split; [apply sublist_nil_l|]. split; [constructor|reflexivity].
  - unfold children in IH |- *. rewrite Hps in IH |- *. cbn [default from_option id] in *.
    destruct (body_loop_leaves _ IH [] [] [] (sublist_nil_l _) (sublist_nil_l _)
                (Forall_nil_2 _) (Forall_nil_2 _)) as (L & Hsub & Hleaf & Htext).
    exists L. split; [apply sublist_cons, Hsub|]. split; [exact Hleaf|exact Htext].
  - destruct (is_text_plain self || is_text_html self) eqn:Ht.
    + exists [self]. split; [apply sublist_skip, sublist_nil_l|].
      split; [|cbn; rewrite app_nil_r; reflexivity].
      constructor; [|constructor]. unfold text_leaf, children.
      rewrite Hps. split; [reflexivity|exact Ht].
    + exists []. split; [apply sublist_nil_l|]. split; [constructor|reflexivity].
Qed.

(** ** File names without encoded words *)

Lemma match_ecre_here_head a s : a ≠ 61 → Py.match_ecre_here (a :: s) = None.
Proof.
  intros Ha. unfold Py.match_ecre_here. destruct a as [|p]; [reflexivity|].
  repeat (destruct p as [p|p|]; try reflexivity). congruence.
Qed.

Lemma match_ecre_here_second b s : b ≠ 63 → Py.match_ecre_here (61 :: b :: s) = None.
Proof.
  intros Hb. unfold Py.match_ecre_here. destruct b as [|p]; [reflexivity|].
  repeat (destruct p as [p|p|]; try reflexivity). congruence.
Qed.

Lemma ecre_search_cons a s :
  Py.ecre_search (a :: s) =
  match Py.match_ecre_here (a :: s) with Some _ => true | None => Py.ecre_search s end.
Proof. reflexivity. Qed.

Lemma ecre_search_no_start (s : str) :
  (∀ i, s !! i = Some 61 → s !! S i ≠ Some 63) → Py.ecre_search s = false.
Proof.
  induction s as [|a s IH]; intros H; [reflexivity|].
  rewrite ecre_search_cons.
  assert (Hhere : Py.match_ecre_here (a :: s) = None).
  { destruct (N.eq_dec a 61) as [->|Ha]; [|apply match_ecre_here_head, Ha].
    destruct s as [|b s]; [reflexivity|].
    apply match_ecre_here_second. intros ->. apply (H 0%nat); reflexivity. }
  rewrite Hhere. apply IH. intros i. apply (H (S i)).
Qed.

(** X14.  A file name in which no [=] is immediately followed by [?]
    holds no encoded word, and [decode_rfc2047_filename] returns it as it
    is, whatever other characters it holds. *)
Theorem decode_rfc2047_filename_plain (filename : str) :
  (∀ i, filename !! i = Some 61 → filename !! S i ≠ Some 63) →
  decode_rfc2047_filename filename = filename.
Proof.
  intros H. unfold decode_rfc2047_filename, Py.decode_header.
  rewrite (ecre_search_no_start _ H). simpl. apply app_nil_r.
Qed.

(** ** Which headers the resolver reads *)

Lemma existsb_names_same key hs hs' :
  same_headers hs hs' → existsb (names key) hs = existsb (names key) hs'.
Proof.
  induction 1 as [|h h' hs hs' [Hn _] _ IH]; [reflexivity|].
  cbn [existsb]. unfold names at 1 3. rewrite Hn, IH. reflexivity.
Qed.

Lemma last_header_value_same key hs hs' :
  same_headers hs hs' → last_header_value key hs = last_header_value key hs'.
Proof.
  induction 1 as [|h h' hs hs' [Hn Hv] Hrest IH]; [reflexivity|].
  cbn [last_header_value]. fold (names key).
  rewrite (existsb_names_same key hs hs' Hrest), IH, Hn, Hv. reflexivity.
Qed.

(** X15.  The resolver reads a header through its name up to the case of
    the ASCII letters and through its value only: two lists of headers
    that agree on these, header by header, give the same file name. *)
Theorem extract_filename_from_headers_same_headers (node node' : MessagePayload)
    (hs hs' : list (gmap str str)) :
  headers node = Some hs → headers node' = Some hs' → same_headers hs hs' →
  extract_filename_from_headers node = extract_filename_from_headers node'.
Proof.
  intros Hhs Hhs' Hsame. rewrite !extract_filename_from_headers_spec, Hhs, Hhs'.
  unfold spec_resolve. cbn [default from_option id].
  rewrite !(last_header_value_same _ hs hs' Hsame). reflexivity.
Qed.

Lemma last_header_value_absent key hs :
  existsb (names key) hs = false → last_header_value key hs = [].
Proof.
  induction hs as [|h hs IH]; [reflexivity|].
  cbn [existsb last_header_value]. fold (names key).
  intros Hex. apply orb_false_iff in Hex as [Hh Hhs].
  rewrite Hhs. unfold names in Hh. rewrite Hh. reflexivity.
Qed.

Lemma last_header_value_remove key before h after :
  names key h = false →
  last_header_value key (before ++ h :: after) = last_header_value key (before ++ after).
Proof.
  intros Hh. induction before as [|b before IH].
  - cbn [app last_header_value]. fold (names key).
    destruct (existsb (names key) after) eqn:Hex; [reflexivity|].
    unfold names in Hh. rewrite Hh. symmetry. apply last_header_value_absent, Hex.
  - cbn [app last_header_value]. fold (names key).
    rewrite !existsb_app. cbn [existsb]. rewrite Hh, IH. reflexivity.
Qed.

(** X16.  A header that is named neither Content-Disposition nor
    Content-Type, up to case, has no effect on the file name, wherever it
    stands in the list. *)
Theorem extract_filename_from_headers_other_header (node node' : MessagePayload)
    (before after : list (gmap str str)) (h : gmap str str) :
  Py.lower (header_name h) ≠ lit "content-disposition" →
  Py.lower (header_name h) ≠ lit "content-type" →
  headers node = Some (before ++ h :: after) → headers node' = Some (before ++ after) →
  extract_filename_from_headers node = extract_filename_from_headers node'.
Proof.
  intros Hd Ht Hhs Hhs'. rewrite !extract_filename_from_headers_spec, Hhs, Hhs'.
  unfold spec_resolve. cbn [default from_option id].
  rewrite !last_header_value_remove; [reflexivity|..];
    unfold names; apply bool_decide_eq_false; assumption.
Qed.

(** ** The parameter of a header value *)

Lemma span_until_app stop name rest :
  stop ∉ name → Py.span_until stop (name ++ stop :: rest) = (name, stop :: rest).
Proof.
  induction name as [|c name IH]; intros Hin.
  - cbn [app Py.span_until]. rewrite N.eqb_refl. reflexivity.
  - apply not_elem_of_cons in Hin as [Hc Hin].
    cbn [app Py.span_until]. rewrite (IH Hin).
    replace (c =? stop) with false; [reflexivity|].
    symmetry. apply N.eqb_neq. congruence.
Qed.

Lemma span_until_end stop name :
  stop ∉ name → Py.span_until stop name = (name, []).
Proof.
  induction name as [|c name IH]; intros Hin; [reflexivity|].
  apply not_elem_of_cons in Hin as [Hc Hin].
  cbn [Py.span_until]. rewrite (IH Hin).
  replace (c =? stop) with false; [reflexivity|].
  symmetry. apply N.eqb_neq. congruence.
Qed.

Lemma match_literal_ic_lower pat s rest :
  Py.lower s = Py.lower pat → Py.match_literal_ic pat (s ++ rest) = Some rest.
Proof.
  revert s. induction pat as [|p pat IH]; intros [|c s] Hl; try discriminate.
  - reflexivity.
  - injection Hl as Hc Hl. cbn [app Py.match_literal_ic].
    unfold Py.char_matches_ic. rewrite Hc, N.eqb_refl. cbn [orb].
    apply IH, Hl.
Qed.

Lemma re_search_param_skip k key prefix s :
  Forall (λ c, Py.char_matches_ic k c = false) prefix →
  Py.re_search_param (k :: key) (prefix ++ s) = Py.re_search_param (k :: key) s.
Proof.
  induction 1 as [|c prefix Hc _ IH]; [reflexivity|].
  cbn [app Py.re_search_param]. unfold Py.match_param_here at 1.
  cbn [Py.match_literal_ic]. rewrite Hc. exact IH.
Qed.

Lemma re_search_param_here key s m :
  Py.match_param_here key s = Some m → Py.re_search_param key s = Some m.
Proof. intros Hm. destruct s; cbn [Py.re_search_param]; rewrite Hm; reflexivity. Qed.

(** The match on a value that holds the keyword, an optional star, the
    equals sign and a quoted or unquoted name, after a prefix in which the
    first letter of the keyword does not occur. *)
Lemma re_search_param_quoted k key prefix kw (star : bool) name suffix :
  Forall (λ c, Py.char_matches_ic k c = false) prefix →
  Py.lower kw = Py.lower (k :: key) →
  name ≠ [] → 34 ∉ name →
  Py.re_search_param (k :: key)
    (prefix ++ kw ++ (if star then [42] else []) ++ [61; 34] ++ name ++ 34 :: suffix)
  = Some (Some name, None).
Proof.
  intros Hprefix Hkw Hne Hq. rewrite (re_search_param_skip _ _ _ _ Hprefix).
  apply re_search_param_here. unfold Py.match_param_here.
  rewrite (match_literal_ic_lower _ _ _ Hkw).
  assert (Hskip : Py.skip_star ((if star then [42] else []) ++ [61; 34] ++ name ++ 34 :: suffix)
                  = [61; 34] ++ name ++ 34 :: suffix) by (destruct star; reflexivity).
  rewrite Hskip. cbn [app N.eqb Pos.eqb Py.match_param_value].
  rewrite (span_until_app 34 name suffix Hq).
  destruct name; [congruence|reflexivity].
Qed.

Lemma re_search_param_unquoted k key prefix kw (star : bool) name suffix :
  Forall (λ c, Py.char_matches_ic k c = false) prefix →
  Py.lower kw = Py.lower (k :: key) →
  name ≠ [] → 59 ∉ name → name !! 0%nat ≠ Some 34 →
  suffix = [] ∨ suffix !! 0%nat = Some 59 →
  Py.re_search_param (k :: key)
    (prefix ++ kw ++ (if star then [42] else []) ++ [61] ++ name ++ suffix)
  = Some (None, Some name).
Proof.
  intros Hprefix Hkw Hne Hs Hq Hsuffix. rewrite (re_search_param_skip _ _ _ _ Hprefix).
  apply re_search_param_here. unfold Py.match_param_here.
  rewrite (match_literal_ic_lower _ _ _ Hkw).
  assert (Hskip : Py.skip_star ((if star then [42] else []) ++ [61] ++ name ++ suffix)
                  = [61] ++ name ++ suffix) by (destruct star; reflexivity).
  rewrite Hskip. cbn [app N.eqb Pos.eqb].
  assert (Hspan : Py.span_until 59 (name ++ suffix) = (name, suffix)).
  { destruct Hsuffix as [->|Hhead].
    - rewrite app_nil_r. apply span_until_end, Hs.
    - destruct suffix as [|c suffix]; [discriminate|]. injection Hhead as ->.
      apply span_until_app, Hs. }
  destruct name as [|c name]; [congruence|].
  unfold Py.match_param_value. cbn [app].
  replace (c =? 34) with false.
  2:{ symmetry. apply N.eqb_neq. intros ->. apply Hq. reflexivity. }
  unfold Py.match_unquoted. change (c :: name ++ suffix) with ((c :: name) ++ suffix).
  rewrite Hspan. reflexivity.
Qed.

(** X17.  The usual forms of a Content-Disposition header.  When the value
    of the last Content-Disposition header is a prefix without the letter
    f, then the keyword filename in any case, an optional star and the
    equals sign, and then either a non-empty name without quotation mark
    between quotation marks, or a non-empty name without semicolon that
    does not begin with a quotation mark and runs up to a semicolon or to
    the end, the resolver returns this name, trimmed and decoded. *)
Theorem content_disposition_filename (node : MessagePayload)
    (hs : list (gmap str str)) (prefix kw name suffix : str) (star : bool) :
  headers node = Some hs →
  Forall (λ c, Py.char_matches_ic 102 c = false) prefix →
  Py.lower kw = lit "filename" → name ≠ [] →
  (34 ∉ name →
   last_header_value (lit "content-disposition") hs
   = prefix ++ kw ++ (if star then [42] else []) ++ [61; 34] ++ name ++ 34 :: suffix →
   extract_filename_from_headers node
   = Some (decode_rfc2047_filename (Py.strip name)))
  ∧ (59 ∉ name → name !! 0%nat ≠ Some 34 →
     suffix = [] ∨ suffix !! 0%nat = Some 59 →
     last_header_value (lit "content-disposition") hs
     = prefix ++ kw ++ (if star then [42] else []) ++ [61] ++ name ++ suffix →
     extract_filename_from_headers node
     = Some (decode_rfc2047_filename (Py.strip name))).
Proof.
  intros Hhs Hprefix Hkw Hne.
  rewrite extract_filename_from_headers_spec, Hhs. unfold spec_resolve, spec_parameter.
  cbn [default from_option id].
  change (lit "filename") with (102 :: lit "ilename"). split.
  - intros Hq ->.
    rewrite (re_search_param_quoted 102 (lit "ilename") prefix kw star name suffix
               Hprefix Hkw Hne Hq).
    reflexivity.
  - intros Hs Hq Hsuffix ->.
    rewrite (re_search_param_unquoted 102 (lit "ilename") prefix kw star name suffix
               Hprefix Hkw Hne Hs Hq Hsuffix).
    reflexivity.
Qed.

(** ** File names that are one encoded word *)

Lemma find_word_end_cons c r :
  c ≠ 63 →
  Py.find_word_end (c :: r)
  = if c =? 10 then None else (λ '(e, t), (c :: e, t)) <$> Py.find_word_end r.
Proof.
  intros Hc. cbn [Py.find_word_end]. destruct c as [|p]; [reflexivity|].
  repeat (destruct p as [p|p|]; try reflexivity). congruence.
Qed.

Lemma find_word_end_app encoded rest :
  Forall (λ c, encoded_char c = true) encoded →
  Py.find_word_end (encoded ++ 63 :: 61 :: rest) = Some (encoded, rest).
Proof.
  induction 1 as [|c encoded Hc _ IH]; [reflexivity|].
  destruct (encoded_char_facts c Hc) as (_ & _ & _ & Hq & Hl).
  cbn [app]. rewrite (find_word_end_cons _ _ Hq), IH.
  replace (c =? 10) with false; [reflexivity|].
  symmetry. apply N.eqb_neq. intros ->. discriminate.
Qed.

Lemma match_ecre_here_word upper encoded :
  Forall (λ c, encoded_char c = true) encoded →
  Py.match_ecre_here (encoded_word upper encoded)
  = Some ((if upper then lit "UTF-8" else lit "utf-8",
           if upper then lit "B" else lit "b", encoded), []).
Proof.
  intros Henc. unfold encoded_word. change (lit "?=") with [63; 61].
  destruct upper.
  - change (lit "=?UTF-8?B?") with [61; 63; 85; 84; 70; 45; 56; 63; 66; 63].
    cbn [app Py.match_ecre_here Py.span_until N.eqb Pos.eqb Py.is_qb orb].
    rewrite (find_word_end_app _ _ Henc). reflexivity.
  - change (lit "=?utf-8?b?") with [61; 63; 117; 116; 102; 45; 56; 63; 98; 63].
    cbn [app Py.match_ecre_here Py.span_until N.eqb Pos.eqb Py.is_qb orb].
    rewrite (find_word_end_app _ _ Henc). reflexivity.
Qed.

Lemma encoded_word_cons upper encoded :
  ∃ r, encoded_word upper encoded = 61 :: r.
Proof. destruct upper; eexists; reflexivity. Qed.

Lemma splitlines_from_plain s :
  Forall (λ c, Py.is_linebreak c = false) s →
  ∀ cur, Py.splitlines_from s cur = if truthy (cur ++ s) then [cur ++ s] else [].
Proof.
  induction 1 as [|c s Hc _ IH]; intros cur.
  - cbn [Py.splitlines_from]. rewrite app_nil_r. reflexivity.
  - cbn [Py.splitlines_from]. rewrite Hc, IH, <- app_assoc. reflexivity.
Qed.

Lemma splitlines_word upper encoded :
  Forall (λ c, encoded_char c = true) encoded →
  Py.splitlines (encoded_word upper encoded) = [encoded_word upper encoded].
Proof.
  intros Henc. unfold Py.splitlines. rewrite splitlines_from_plain.
  - destruct (encoded_word_cons upper encoded) as [r ->]. reflexivity.
  - unfold encoded_word. apply Forall_app. split.
    + destruct upper; repeat (constructor; [reflexivity|]); constructor.
    + apply Forall_app. split; [|repeat (constructor; [reflexivity|]); constructor].
      eapply Forall_impl; [exact Henc|]. intros c Hc. apply encoded_char_facts, Hc.
Qed.

Lemma line_words_word upper encoded :
  Forall (λ c, encoded_char c = true) encoded →
  Py.line_words (encoded_word upper encoded)
  = [(encoded, Some (lit "b"), Some (lit "utf-8"))].
Proof.
  intros Henc. unfold Py.line_words.
  destruct (length (encoded_word upper encoded)) as [|n] eqn:Hlen.
  { destruct (encoded_word_cons upper encoded) as [r Hr]. rewrite Hr in Hlen.
    discriminate. }
  cbn [Py.ecre_split]. rewrite (match_ecre_here_word upper encoded Henc).
  destruct upper; reflexivity.
Qed.

Lemma raw_unicode_escape_small s :
  Forall (λ c, c < 256) s → Py.raw_unicode_escape s = s.
Proof.
  unfold Py.raw_unicode_escape. induction 1 as [|c s Hc _ IH]; [reflexivity|].
  rewrite bind_cons, IH. unfold Py.raw_unicode_escape_char.
  apply N.ltb_lt in Hc. rewrite Hc. reflexivity.
Qed.

Lemma length_b64encode bs : (length (Py.b64encode bs) mod 4 = 0)%nat.
Proof.
  induction bs as [|a|a b|a b c l IH] using list_ind3; try reflexivity.
  cbn [Py.b64encode length].
  replace (S (S (S (S (length (Py.b64encode l))))))
    with (length (Py.b64encode l) + 1 * 4)%nat by lia.
  rewrite Nat.Div0.mod_add. exact IH.
Qed.

Lemma decode_word_b64encode bs charset :
  Forall (λ b, b < 256) bs →
  Py.decode_word (Py.b64encode bs, Some (lit "b"), charset) = Some (bs, charset).
Proof.
  intros Hbs. unfold Py.decode_word.
  rewrite (bool_decide_eq_false_2 (lit "b" = lit "q")) by discriminate.
  rewrite (bool_decide_eq_true_2 (lit "b" = lit "b")) by reflexivity.
  rewrite length_b64encode.
  rewrite (bool_decide_eq_true_2 (0 = 0)%nat) by reflexivity.
  unfold Py.base64mime_decode. rewrite raw_unicode_escape_small.
  - rewrite (a2b_base64_b64encode bs Hbs).
    destruct bs as [|a [|b [|c l]]]; reflexivity.
  - eapply Forall_impl; [apply (b64encode_chars bs Hbs)|].
    intros c Hc. destruct (encoded_char_facts c Hc) as (H & _). lia.
Qed.

Lemma decode_header_word upper bs :
  Forall (λ b, b < 256) bs →
  Py.decode_header (encoded_word upper (Py.b64encode bs))
  = Some [(Py.PBytes bs, Some (lit "utf-8"))].
Proof.
  intros Hbs. pose proof (b64encode_chars bs Hbs) as Henc.
  unfold Py.decode_header.
  assert (Hsearch : Py.ecre_search (encoded_word upper (Py.b64encode bs)) = true).
  { pose proof (match_ecre_here_word upper _ Henc) as Hm.
    destruct (encoded_word_cons upper (Py.b64encode bs)) as [r Hr].
    rewrite Hr in Hm |- *. rewrite ecre_search_cons, Hm. reflexivity. }
  rewrite Hsearch, (splitlines_word upper _ Henc). cbn [negb].
  rewrite bind_cons. change ([] ≫= Py.line_words) with (@nil Py.word).
  rewrite app_nil_r, (line_words_word upper _ Henc).
  change (Py.drop_blanks [(Py.b64encode bs, Some (lit "b"), Some (lit "utf-8"))])
    with [(Py.b64encode bs, Some (lit "b"), Some (lit "utf-8"))].
  cbn [mapM]. rewrite (decode_word_b64encode bs _ Hbs). reflexivity.
Qed.

(** X22.  A file name that is one encoded word, with UTF-8 as charset and
    B as encoding in either case, over the standard base64 encoding of the
    UTF-8 encoding of a text, is decoded to that text by
    [decode_rfc2047_filename]; over the encoding of any octets, to their
    lossy UTF-8 decoding. *)
Theorem decode_rfc2047_filename_encoded_word (upper : bool) (text : str) (bs : bytes) :
  (Forall (λ b, b < 256) bs →
   decode_rfc2047_filename (encoded_word upper (Py.b64encode bs))
   = Py.decode_utf8_ignore bs)
  ∧ (Py.utf8_encode text = Some bs →
     decode_rfc2047_filename (encoded_word upper (Py.b64encode bs)) = text).
Proof.
  assert (Hbytes : Forall (λ b, b < 256) bs →
                   decode_rfc2047_filename (encoded_word upper (Py.b64encode bs))
                   = Py.decode_utf8_ignore bs).
  { intros Hbs. unfold decode_rfc2047_filename.
    rewrite (decode_header_word upper bs Hbs). cbn [mapM].
    rewrite decode_part_charset by discriminate. rewrite bytes_decode_utf8.
    cbn. apply app_nil_r. }
  split; [exact Hbytes|]. intros Henc.
  rewrite (Hbytes (utf8_encode_bytes _ _ Henc)).
  apply decode_utf8_ignore_utf8_encode, Henc.
Qed.

(** ** The headers of a message *)

Lemma foldl_client_header_step_None hs : foldl client_header_step None hs = None.
Proof. induction hs as [|h hs IH]; [reflexivity|exact IH]. Qed.

Lemma client_header_dict_from (key : str) (hs : list (gmap str str)) :
  ∀ d0 d : gmap str str,
    foldl client_header_step (Some d0) hs = Some d →
    Forall (λ h, is_Some (h !! lit "name") ∧ is_Some (h !! lit "value")) hs
    ∧ default [] (d !! key)
      = if existsb (named key) hs then last_named_value key hs
        else default [] (d0 !! key).
Proof.
  induction hs as [|h hs IH]; intros d0 d Hd.
  - cbn in Hd. injection Hd as <-. split; [constructor|reflexivity].
  - cbn [foldl] in Hd. unfold client_header_step at 2 in Hd.
    destruct (h !! lit "name") as [name|] eqn:Hn;
      [|rewrite foldl_client_header_step_None in Hd; discriminate].
    destruct (h !! lit "value") as [value|] eqn:Hv;
      [|rewrite foldl_client_header_step_None in Hd; discriminate].
    destruct (IH _ _ Hd) as [Hall Hlookup]. split.
    + constructor; [rewrite Hn, Hv; split; eauto|exact Hall].
    + rewrite Hlookup. cbn [existsb last_named_value].
      destruct (existsb (named key) hs); [rewrite orb_true_r; reflexivity|].
      rewrite orb_false_r. unfold named, header_name, header_value.
      rewrite Hn, Hv. cbn [default from_option id].
      destruct (bool_decide_reflect (name = key)) as [->|Hne].
      * rewrite lookup_insert_eq. reflexivity.
      * rewrite lookup_insert_ne by exact Hne. reflexivity.
Qed.

Lemma client_header_dict_total (hs : list (gmap str str)) :
  Forall (λ h, is_Some (h !! lit "name") ∧ is_Some (h !! lit "value")) hs →
  ∀ d0, is_Some (foldl client_header_step (Some d0) hs).
Proof.
  induction 1 as [|h hs [[name Hn] [value Hv]] _ IH]; intros d0; [eauto|].
  cbn [foldl]. unfold client_header_step at 2. rewrite Hn, Hv. apply IH.
Qed.

Lemma last_named_value_absent key hs :
  existsb (named key) hs = false → last_named_value key hs = [].
Proof.
  induction hs as [|h hs IH]; [reflexivity|].
  cbn [existsb last_named_value]. intros Hex.
  apply orb_false_iff in Hex as [Hh Hhs]. rewrite Hhs, Hh. reflexivity.
Qed.

Lemma existsb_named_none key hs :
  Forall (λ h, header_name h ≠ key) hs → existsb (named key) hs = false.
Proof.
  induction 1 as [|h hs Hh _ IH]; [reflexivity|].
  cbn [existsb]. unfold named at 1.
  rewrite (bool_decide_eq_false_2 _ Hh). exact IH.
Qed.

(** X23.  The header dictionary of [get_message] and of the batch
    callback exists exactly when every header has a name and a value; a
    field read from it is then the value of the last header whose name is
    the key letter for letter, and the empty string when there is none:
    unlike the file-name resolver of [models.py], the lookup does not
    fold the case, so a header named [subject] gives no Subject. *)
Theorem client_header_dict_lookup (hs : list (gmap str str)) :
  (is_Some (client_header_dict hs)
   ↔ Forall (λ h, is_Some (h !! lit "name") ∧ is_Some (h !! lit "value")) hs)
  ∧ ∀ d, client_header_dict hs = Some d →
      (∀ key, header_field key d = last_named_value (lit key) hs)
      ∧ (∀ key, Forall (λ h, header_name h ≠ lit key) hs → header_field key d = []).
Proof.
  unfold client_header_dict. split.
  - split; [|intros Hall; apply client_header_dict_total, Hall].
    intros [d Hd]. apply (client_header_dict_from [] hs ∅ d Hd).
  - intros d Hd.
    assert (Hfield : ∀ key, header_field key d = last_named_value (lit key) hs).
    { intros key. unfold header_field.
      rewrite (proj2 (client_header_dict_from (lit key) hs ∅ d Hd)), lookup_empty.
      destruct (existsb (named (lit key)) hs) eqn:Hex; [reflexivity|].
      symmetry. apply last_named_value_absent, Hex. }
    split; [exact Hfield|]. intros key Hnone. rewrite Hfield.
    apply last_named_value_absent, existsb_named_none, Hnone.
Qed.

(** ** The batch retrieval *)

Section BatchFacts.

Context {Response Message Error : Type} (parse : Response → Message + Error).

Implicit Types (c : call Response Error) (calls : list (call Response Error)).
Implicit Types (st : batch_state Message Error) (out : list Message).
Implicit Types (execute : list str → option (list (call Response Error))).
Implicit Types (message_id : str) (message_ids : list str).

Lemma results_callback st c :
  results (callback parse st c)
  = match answer parse c with
    | Some message => <[request_id c := message]> (results st)
    | None => results st
    end.
Proof.
  unfold callback, answer. destruct (exception c); [reflexivity|].
  destruct (response c) as [r|]; [|reflexivity]. destruct (parse r); reflexivity.
Qed.

(** The dictionary holds, under an id, the message recorded last. *)
Lemma results_foldl_lookup message_id calls st :
  results (foldl (callback parse) st calls) !! message_id
  = final_result parse message_id calls (results st !! message_id).
Proof.
  revert st. induction calls as [|c calls IH]; intros st; [reflexivity|].
  cbn [foldl final_result]. rewrite IH, results_callback. f_equal.
  destruct (bool_decide_reflect (request_id c = message_id)) as [<-|Hne].
  - destruct (answer parse c); [apply lookup_insert_eq|reflexivity].
  - destruct (answer parse c); [apply lookup_insert_ne, Hne|reflexivity].
Qed.

Lemma final_result_Some message_id calls acc message :
  final_result parse message_id calls acc = Some message →
  acc = Some message
  ∨ ∃ c, c ∈ calls ∧ request_id c = message_id ∧ answer parse c = Some message.
Proof.
  revert acc. induction calls as [|c calls IH]; intros acc; [left; assumption|].
  cbn [final_result]. intros H. destruct (IH _ H) as [Hacc|(c' & Hin & Hid & Ha)].
  - destruct (bool_decide_reflect (request_id c = message_id)) as [Hid|_];
      [|left; exact Hacc].
    destruct (answer parse c) as [m|] eqn:Ha; [|left; exact Hacc].
    right. exists c. split; [left|]. split; [exact Hid|]. congruence.
  - right. exists c'. split; [right; exact Hin|]. auto.
Qed.

Lemma final_result_once message_id calls acc :
  NoDup (request_id <$> calls) →
  final_result parse message_id calls acc
  = match List.find (λ c, bool_decide (request_id c = message_id)) calls with
    | Some c => match answer parse c with Some message => Some message | None => acc end
    | None => acc
    end.
Proof.
  revert acc. induction calls as [|c calls IH]; intros acc Hnd; [reflexivity|].
  cbn [fmap list_fmap] in Hnd. apply NoDup_cons in Hnd as [Hc Hnd].
  cbn [final_result List.find]. rewrite (IH _ Hnd).
  destruct (bool_decide_reflect (request_id c = message_id)) as [Hid|Hne];
    [|reflexivity].
  destruct (List.find _ calls) as [c'|] eqn:Hfind; [|reflexivity].
  apply find_some in Hfind as [Hin Hid']. apply bool_decide_eq_true in Hid'.
  exfalso. apply Hc. rewrite Hid, <- Hid'.
  apply list_elem_of_fmap_2, list_elem_of_In, Hin.
Qed.

(** No message is recorded when no invocation records one, and no
    exception when none fails. *)
Lemma results_foldl_empty calls st :
  results (foldl (callback parse) st calls) = ∅
  ↔ results st = ∅ ∧ ∀ c, c ∈ calls → answer parse c = None.
Proof.
  revert st. induction calls as [|c calls IH]; intros st.
  - cbn [foldl]. split; [intros H; split; [exact H|]|intros [H _]; exact H].
    intros c Hin. apply elem_of_nil in Hin. destruct Hin.
  - cbn [foldl]. rewrite IH, results_callback. split.
    + intros [Hst Hall]. destruct (answer parse c) as [m|] eqn:Ha.
      * exfalso. exact (insert_non_empty _ _ _ Hst).
      * split; [exact Hst|]. intros c' Hin.
        apply elem_of_cons in Hin as [->|Hin]; [exact Ha|apply Hall, Hin].
    + intros [Hst Hall]. rewrite (Hall c (list_elem_of_here _ _)).
      split; [exact Hst|]. intros c' Hin. apply Hall. right. exact Hin.
Qed.

Lemma errors_callback_empty st c :
  errors (callback parse st c) = ∅ ↔ errors st = ∅ ∧ failed parse c = false.
Proof.
  unfold callback, failed. destruct (exception c) as [e|].
  - split; [|intros [_ H]; discriminate].
    intros H. exfalso. exact (insert_non_empty _ _ _ H).
  - destruct (response c) as [r|]; [|tauto].
    destruct (parse r) as [m|e]; cbn [errors]; [tauto|].
    split; [|intros [_ H]; discriminate].
    intros H. exfalso. exact (insert_non_empty _ _ _ H).
Qed.

Lemma errors_foldl_empty calls st :
  errors (foldl (callback parse) st calls) = ∅
  ↔ errors st = ∅ ∧ ∀ c, c ∈ calls → failed parse c = false.
Proof.
  revert st. induction calls as [|c calls IH]; intros st.
  - cbn [foldl]. split; [intros H; split; [exact H|]|intros [H _]; exact H].
    intros c Hin. apply elem_of_nil in Hin. destruct Hin.
  - cbn [foldl]. rewrite IH, errors_callback_empty. split.
    + intros [[Hst Hc] Hall]. split; [exact Hst|]. intros c' Hin.
      apply elem_of_cons in Hin as [->|Hin]; [exact Hc|apply Hall, Hin].
    + intros [Hst Hall]. split; [split; [exact Hst|apply Hall; left]|].
      intros c' Hin. apply Hall. right. exact Hin.
Qed.

Lemma size_eqb_empty {A} (m : gmap str A) : (base.size m =? 0)%nat = true ↔ m = ∅.
Proof. rewrite Nat.eqb_eq. apply map_size_empty_iff. Qed.

Lemma omap_ext_pointwise {A B} (f g : A → option B) (l : list A) :
  (∀ x, f x = g x) → omap f l = omap g l.
Proof.
  intros H. induction l as [|x l IH]; [reflexivity|].
  csimpl. rewrite H, IH. reflexivity.
Qed.

Lemma get_messages_batch_returns execute message_ids out :
  get_messages_batch parse execute message_ids = Returns out →
  (message_ids = [] → out = [])
  ∧ (message_ids ≠ [] →
     ∃ calls, execute message_ids = Some calls
       ∧ out = omap (λ message_id, final_result parse message_id calls None)
                 message_ids).
Proof.
  unfold get_messages_batch. destruct (truthy message_ids) eqn:Ht; cbn [negb].
  - apply truthy_true in Ht.
    destruct (execute message_ids) as [calls|]; [|discriminate].
    destruct (negb _ && _); [discriminate|]. intros H. injection H as <-.
    split; [intros Hnil; contradiction|]. intros _. exists calls.
    split; [reflexivity|]. apply omap_ext_pointwise. intros i.
    rewrite results_foldl_lookup. cbn [results]. rewrite lookup_empty. reflexivity.
  - apply truthy_false in Ht. intros H. injection H as <-.
    split; [reflexivity|contradiction].
Qed.


(** X19.  When the library invokes the callback at most once for an id,
    the result is the list of the messages of the ids that were answered
    with a response that parses, in the order of [message_ids]; the ids
    whose request failed, or came back without response, or with a
    response that does not parse, are left out without notice. *)
Theorem get_messages_batch_once execute message_ids calls out :
  execute message_ids = Some calls → NoDup (request_id <$> calls) →
  get_messages_batch parse execute message_ids = Returns out →
  out = omap (answer_for parse calls) message_ids.
Proof.
  intros Hex Hnd Hout.
  destruct (get_messages_batch_returns _ _ _ Hout) as [Hnil Hsome].
  destruct message_ids as [|i ids]; [rewrite Hnil; reflexivity|].
  destruct (Hsome ltac:(discriminate)) as (calls' & Hex' & ->).
  rewrite Hex in Hex'. injection Hex' as <-.
  apply omap_ext_pointwise. intros j.
  rewrite (final_result_once _ _ _ Hnd). unfold answer_for.
  destruct (List.find _ calls) as [c|]; [|reflexivity].
  destruct (answer parse c); reflexivity.
Qed.

(** X20.  For a non-empty list of ids on which the library does not
    raise, [get_messages_batch] raises exactly when some invocation of the
    callback recorded an exception and no invocation recorded a message;
    with at least one message it returns, and it returns the empty list
    when every invocation came without exception and without response. *)
Theorem get_messages_batch_raises execute message_ids calls :
  message_ids ≠ [] → execute message_ids = Some calls →
  (get_messages_batch parse execute message_ids = Raises
   ↔ (∃ c, c ∈ calls ∧ failed parse c = true)
     ∧ ∀ c, c ∈ calls → answer parse c = None)
  ∧ ((∀ c, c ∈ calls → failed parse c = false)
     ∧ (∀ c, c ∈ calls → answer parse c = None) →
     get_messages_batch parse execute message_ids = Returns []).
Proof.
  intros Hne Hex. unfold get_messages_batch.
  destruct message_ids as [|i ids]; [congruence|]. cbn [truthy negb]. rewrite Hex.
  set (st := foldl (callback parse) (mkBatchState ∅ ∅) calls).
  assert (He : (base.size (errors st) =? 0)%nat = true
               ↔ ∀ c, c ∈ calls → failed parse c = false).
  { rewrite size_eqb_empty. unfold st. rewrite errors_foldl_empty. cbn [errors].
    split; [intros [_ H]; exact H|intros H; split; [reflexivity|exact H]]. }
  assert (Hr : (base.size (results st) =? 0)%nat = true
               ↔ ∀ c, c ∈ calls → answer parse c = None).
  { rewrite size_eqb_empty. unfold st. rewrite results_foldl_empty. cbn [results].
    split; [intros [_ H]; exact H|intros H; split; [reflexivity|exact H]]. }
  split.
  - split.
    + destruct (base.size (errors st) =? 0)%nat eqn:E1; [discriminate|].
      destruct (base.size (results st) =? 0)%nat eqn:E2; [|discriminate]. intros _.
      split; [|apply Hr; reflexivity].
      destruct (existsb (failed parse) calls) eqn:Hexb.
      * apply existsb_exists in Hexb as (c & Hin & Hf). exists c.
        split; [apply list_elem_of_In, Hin|exact Hf].
      * exfalso. assert (Hcontra : false = true); [|discriminate].
        apply He. intros c Hin. apply list_elem_of_In in Hin.
        destruct (failed parse c) eqn:Hf; [|reflexivity]. rewrite <- Hexb. symmetry.
        apply existsb_exists. exists c. auto.
    + intros [(c & Hin & Hf) Hall].
      replace (base.size (results st) =? 0)%nat with true
        by (symmetry; apply Hr, Hall).
      destruct (base.size (errors st) =? 0)%nat eqn:E1; [|reflexivity].
      rewrite (proj1 He eq_refl c Hin) in Hf. discriminate.
  - intros [Hf Ha].
    replace (base.size (errors st) =? 0)%nat with true by (symmetry; apply He, Hf).
    cbn [negb andb]. f_equal.
    assert (Hempty : results st = ∅) by (apply size_eqb_empty, Hr, Ha).
    rewrite Hempty. clear. induction (i :: ids) as [|j l IH]; [reflexivity|].
    csimpl. rewrite lookup_empty. exact IH.
Qed.

End BatchFacts.

End Decoder.

(** ** The theorems at sample values *)

Lemma C1_plain_preferred_witness :
  direct_text KPlain [plain_part; html_part] ≠ []
  ∧ extract_body_text (container "multipart/alternative" [plain_part; html_part])
    = lit "Plain text"
  ∧ kind_of (container "multipart/alternative" [html_part]) = KOther
  ∧ extract_body_text html_first_message
    = extract_body_text (container "multipart/alternative" [html_part]).
Proof.
  assert (Hplain : direct_text KPlain [plain_part; html_part] ≠ []).
  { vm_compute. discriminate. }
  split; [exact Hplain|]. split.
  - rewrite (proj1 (proj1 (C1_plain_preferred_among_direct_children
                             (container "multipart/alternative" [plain_part; html_part])
                             [plain_part; html_part] eq_refl ltac:(discriminate))
                      ltac:(intros c Hin _ Hk;
                            apply elem_of_cons in Hin as [->|Hin];
                            [vm_compute in Hk; discriminate|];
                            apply elem_of_cons in Hin as [->|Hin];
                            [vm_compute in Hk; discriminate|];
                            apply elem_of_nil in Hin; destruct Hin)) Hplain).
    vm_compute. reflexivity.
  - split; [reflexivity|].
    apply (proj2 (C1_plain_preferred_among_direct_children html_first_message
                    [container "multipart/alternative" [html_part]; plain_part]
                    eq_refl ltac:(discriminate))
             [] (container "multipart/alternative" [html_part]) [plain_part] eq_refl).
    + intros b Hb. apply elem_of_nil in Hb. destruct Hb.
    + reflexivity.
    + reflexivity.
    + vm_compute. discriminate.
Defined.

(** The claim C1 as it is written fails: the plain part and the HTML part
    both decode to a non-empty text, the HTML part is nested in a
    container that comes first, and the body text is the HTML. *)
Lemma C1_html_returned_before_plain :
  decode_body_data plain_part = lit "Plain text"
  ∧ decode_body_data html_part = lit "<p>HTML text</p>"
  ∧ extract_body_text html_first_message = lit "<p>HTML text</p>"
  ∧ extract_body_text html_first_message ≠ lit "Plain text".
Proof. vm_compute. repeat split; discriminate. Qed.



Lemma C3_attachment_witness :
  create_attachment sample_codecs (file_part "application/pdf" "test.pdf" "att123" 1024)
  = Some (mkAttachment (lit "att123") (lit "test.pdf") (lit "application/pdf") 1024)
  ∧ spec_resolved_filename sample_codecs unnamed_remote_part = None
  ∧ extract_attachments sample_codecs unnamed_remote_part = [].
Proof.
  split.
  - apply (proj1 (proj2 (C3_attachment_iff_eligible sample_codecs
                           (file_part "application/pdf" "test.pdf" "att123" 1024)))).
    exists (lit "att123"), (lit "test.pdf").
    vm_compute. repeat split; discriminate.
  - split; [reflexivity|].
    rewrite (proj2 (proj2 (proj2 (proj2 (C3_attachment_iff_eligible sample_codecs
                                           unnamed_remote_part)))
                     (or_introl eq_refl))).
    reflexivity.
Defined.



Lemma C6_precedence_witness :
  headers (headed_part [disposition_header; type_header])
  = Some [disposition_header; type_header]
  ∧ Py.re_search_param (lit "filename")
      (last_header_value (lit "content-disposition") [disposition_header; type_header])
    = Some (Some (lit "document.pdf"), None)
  ∧ extract_filename_from_headers sample_codecs
      (headed_part [disposition_header; type_header])
    = Some (lit "document.pdf")
  ∧ extract_filename_from_headers sample_codecs (headed_part [type_header])
    = Some (lit "other.pdf")
  ∧ extract_filename_from_headers sample_codecs
      (headed_part [disposition_header;
                    header "content-disposition" (lit "attachment; filename=last.pdf")])
    = Some (lit "last.pdf").
Proof.
  split; [reflexivity|]. split; [vm_compute; reflexivity|].
  split; [|split].
  - rewrite (proj1 (proj2 (proj2 (proj2 (C6_header_filename_resolver sample_codecs
                (headed_part [disposition_header; type_header])))))
               [disposition_header; type_header] (Some (lit "document.pdf"), None)
               eq_refl ltac:(vm_compute; reflexivity)).
    vm_compute. reflexivity.
  - rewrite (proj1 (proj2 (proj2 (proj2 (proj2 (C6_header_filename_resolver sample_codecs
                (headed_part [type_header]))))))
               [type_header] (Some (lit "other.pdf"), None)
               eq_refl ltac:(vm_compute; reflexivity) ltac:(vm_compute; reflexivity)).
    vm_compute. reflexivity.
  - vm_compute. reflexivity.
Defined.

Lemma C7_order_witness :
  children nested_message
  = [file_part "application/pdf" "doc1.pdf" "att1" 1024]
    ++ container "multipart/alternative"
         [ text_part "text/plain" "dGV4dA=="; file_part "image/png" "image.png" "att2" 2048 ]
    :: [file_part "application/pdf" "nested.pdf" "att_nested" 1024]
  ∧ att_file_name <$> extract_attachments sample_codecs nested_message
    = [lit "doc1.pdf"; lit "image.png"; lit "nested.pdf"].
Proof.
  split; [reflexivity|].
  rewrite (proj2 (proj2 (C7_attachments_in_preorder sample_codecs nested_message))
             [file_part "application/pdf" "doc1.pdf" "att1" 1024]
             (container "multipart/alternative"
                [ text_part "text/plain" "dGV4dA==";
                  file_part "image/png" "image.png" "att2" 2048 ])
             [file_part "application/pdf" "nested.pdf" "att_nested" 1024]
             eq_refl).
  vm_compute. reflexivity.
Defined.

Lemma C8_invalid_input_witness :
  Py.urlsafe_b64decode (lit "invalid_base64!!!") = None
  ∧ decode_base64_text (lit "invalid_base64!!!") = [].
Proof.
  split; [vm_compute; reflexivity|].
  apply (proj1 (proj2 (C8_decode_base64_text (lit "invalid_base64!!!")))).
  vm_compute. reflexivity.
Defined.

Lemma C9_total_witness :
  (depth (nest 5 (lit "multipart/mixed") plain_part) + sample_helper_frames + 2 ≤ 15)%nat
  ∧ extract_body_text_within sample_helper_frames sample_decode_body_data_short 15
      (nest 5 (lit "multipart/mixed") plain_part) = Some (lit "Plain text")
  ∧ extract_attachments_within sample_codecs sample_helper_frames
      sample_create_attachment_short 15 (nest 5 (lit "multipart/mixed") plain_part)
    = Some []
  ∧ (∀ n, n ∈ preorder plain_part → create_attachment sample_codecs n = None)
  ∧ extract_attachments sample_codecs plain_part = []
  ∧ skipped plain_part = false
  ∧ extract_body_text_within sample_helper_frames sample_decode_body_data_short 5
      (nest 5 (lit "multipart/mixed") plain_part) = None
  ∧ extract_attachments_within sample_codecs sample_helper_frames
      sample_create_attachment_short 5 (nest 5 (lit "multipart/mixed") plain_part) = None.
Proof.
  assert (Hframes : (depth (nest 5 (lit "multipart/mixed") plain_part)
                     + sample_helper_frames + 2 ≤ 15)%nat).
  { vm_compute. lia. }
  assert (Hnone : ∀ n, n ∈ preorder plain_part → create_attachment sample_codecs n = None).
  { intros n Hn. apply elem_of_cons in Hn as [->|Hn]; [reflexivity|].
    apply elem_of_nil in Hn. destruct Hn. }
  pose proof (C9_total_within_call_stack sample_codecs sample_helper_frames
                sample_decode_body_data_short sample_create_attachment_short
                (nest 5 (lit "multipart/mixed") plain_part))
    as (Henough & Hdeep & _).
  pose proof (C9_total_within_call_stack sample_codecs sample_helper_frames
                sample_decode_body_data_short sample_create_attachment_short plain_part)
    as (_ & _ & Hchain & Hempty & _).
  destruct (Henough 15%nat Hframes) as [Htext Hattachments].
  split; [exact Hframes|].
  split; [rewrite Htext; vm_compute; reflexivity|].
  split; [rewrite Hattachments; vm_compute; reflexivity|].
  split; [exact Hnone|].
  split; [apply (proj1 (Hempty Hnone))|].
  split; [reflexivity|].
  split; [apply (Hchain 5%nat 5%nat (lit "multipart/mixed")); [lia|reflexivity]|].
  apply (Hdeep 5%nat). vm_compute. lia.
Defined.

(** The claim C9 as it is written fails: the tree is structurally valid, a
    plain text a thousand containers deep, and with the thousand nested
    calls the interpreter allows by default both methods raise
    [RecursionError], at the call on the innermost part, although no
    helper raises; on an unbounded stack they return the text and no
    attachment. *)
Lemma C9_deep_nesting_raises :
  depth deep_message = 1000%nat
  ∧ extract_body_text_within sample_helper_frames sample_decode_body_data_short 1000
      deep_message = None
  ∧ extract_attachments_within sample_codecs sample_helper_frames
      sample_create_attachment_short 1000 deep_message = None
  ∧ extract_body_text deep_message = lit "Plain text"
  ∧ extract_attachments sample_codecs deep_message = [].
Proof. vm_compute. repeat split; reflexivity. Qed.


(** ** The further theorems at sample values *)

Lemma decode_base64_text_round_trip_witness :
  Py.utf8_encode mixed_text = Some mixed_bytes
  ∧ decode_base64_text (Py.urlsafe_b64encode mixed_bytes) = mixed_text.
Proof.
  split; [reflexivity|].
  apply (decode_base64_text_round_trip mixed_text mixed_bytes eq_refl).
Defined.

Lemma decode_base64_text_urlsafe_b64encode_witness :
  Forall (λ b, b < 256) [255; 72; 105]
  ∧ decode_base64_text (Py.urlsafe_b64encode [255; 72; 105])
    = Py.decode_utf8_ignore [255; 72; 105].
Proof.
  assert (H : Forall (λ b, b < 256) [255; 72; 105]).
  { repeat (constructor; [reflexivity|]). constructor. }
  split; [exact H|]. apply (decode_base64_text_urlsafe_b64encode _ H).
Defined.

Lemma decode_base64_text_non_ascii_witness :
  233 ∈ (lit "SGVsbG8=" ++ [233]) ∧ 128 ≤ 233
  ∧ decode_base64_text (lit "SGVsbG8=" ++ [233]) = [].
Proof.
  assert (Hin : 233 ∈ (lit "SGVsbG8=" ++ [233])).
  { apply elem_of_app. right. constructor. }
  assert (Hc : 128 ≤ 233) by discriminate.
  split; [exact Hin|]. split; [exact Hc|].
  apply (decode_base64_text_non_ascii _ 233 Hin Hc).
Defined.

Lemma decode_base64_text_unpadded_witness :
  Forall (λ c, c < 128) (lit "SGVsbG8") ∧ (61 ∉ lit "SGVsbG8")
  ∧ (sextets (lit "SGVsbG8") mod 4 ≠ 0)%nat
  ∧ decode_base64_text (lit "SGVsbG8") = [].
Proof.
  assert (Ha : Forall (λ c, c < 128) (lit "SGVsbG8")).
  { repeat (constructor; [reflexivity|]). constructor. }
  assert (Hp : 61 ∉ lit "SGVsbG8").
  { intros Hin. repeat (apply elem_of_cons in Hin as [Hin|Hin]; [discriminate|]).
    apply elem_of_nil in Hin. exact Hin. }
  assert (Hn : (sextets (lit "SGVsbG8") mod 4 ≠ 0)%nat) by discriminate.
  split; [exact Ha|]. split; [exact Hp|]. split; [exact Hn|].
  apply (proj2 (decode_base64_text_unpadded _ Ha Hp) Hn).
Defined.

Lemma decode_base64_text_ignores_witness :
  10 < 128 ∧ 10 ≠ 61 ∧ in_alphabet 10 = false
  ∧ decode_base64_text (lit "SGVs" ++ 10 :: lit "bG8=")
    = decode_base64_text (lit "SGVs" ++ lit "bG8=").
Proof.
  split; [reflexivity|]. split; [discriminate|]. split; [reflexivity|].
  apply (decode_base64_text_ignores (lit "SGVs") 10 (lit "bG8=")
           eq_refl ltac:(discriminate) eq_refl).
Defined.

Lemma extract_attachments_well_formed_witness :
  (mkAttachment (lit "att2") (lit "image.png") (lit "image/png") 2048
     ∈ extract_attachments sample_codecs nested_message)
  ∧ att_attachment_id (mkAttachment (lit "att2") (lit "image.png") (lit "image/png") 2048)
    ≠ []
  ∧ att_file_name (mkAttachment (lit "att2") (lit "image.png") (lit "image/png") 2048)
    ≠ [].
Proof.
  assert (Hin : mkAttachment (lit "att2") (lit "image.png") (lit "image/png") 2048
                  ∈ extract_attachments sample_codecs nested_message).
  { vm_compute. repeat constructor. }
  split; [exact Hin|].
  pose proof (proj2 (extract_attachments_well_formed sample_codecs nested_message)
                _ Hin) as H.
  split; [exact (proj1 H)|exact (proj1 (proj2 H))].
Defined.

Lemma create_attachment_filename_field_witness :
  filename encoded_name_part = Some (lit "=?utf-8?q?caf=C3=A9?=.pdf")
  ∧ create_attachment sample_codecs
      (with_headers (Some [disposition_header]) encoded_name_part)
    = create_attachment sample_codecs encoded_name_part
  ∧ create_attachment sample_codecs encoded_name_part
    = Some (mkAttachment (lit "att1") (lit "=?utf-8?q?caf=C3=A9?=.pdf")
              (lit "application/pdf") 1024).
Proof.
  split; [reflexivity|].
  pose proof (create_attachment_filename_field sample_codecs encoded_name_part
                (lit "=?utf-8?q?caf=C3=A9?=.pdf") eq_refl ltac:(discriminate)) as H.
  split; [apply (proj1 H)|].
  apply (proj2 H (lit "att1") eq_refl ltac:(discriminate)).
Defined.

Lemma attachment_not_in_body_text_witness :
  create_attachment sample_codecs (file_part "application/pdf" "doc1.pdf" "att1" 1024)
  = Some (mkAttachment (lit "att1") (lit "doc1.pdf") (lit "application/pdf") 1024)
  ∧ extract_body_text nested_message
    = body_loop
        ([] ++ [ container "multipart/alternative"
                   [ text_part "text/plain" "dGV4dA==";
                     file_part "image/png" "image.png" "att2" 2048 ];
                 file_part "application/pdf" "nested.pdf" "att_nested" 1024 ]) [] [].
Proof.
  split; [reflexivity|].
  apply (proj1 (attachment_not_in_body_text sample_codecs nested_message
                  (file_part "application/pdf" "doc1.pdf" "att1" 1024)
                  (mkAttachment (lit "att1") (lit "doc1.pdf") (lit "application/pdf") 1024)
                  []
                  [ container "multipart/alternative"
                      [ text_part "text/plain" "dGV4dA==";
                        file_part "image/png" "image.png" "att2" 2048 ];
                    file_part "application/pdf" "nested.pdf" "att_nested" 1024 ]
                  eq_refl eq_refl)).
Defined.

Lemma root_attachment_id_is_not_read_witness :
  create_attachment sample_codecs text_attachment_part
  = Some (mkAttachment (lit "att9") (lit "notes.txt") (lit "text/plain") 10)
  ∧ extract_attachments sample_codecs text_attachment_part
    = [mkAttachment (lit "att9") (lit "notes.txt") (lit "text/plain") 10]
  ∧ extract_body_text text_attachment_part = decode_base64_text (lit "UGxhaW4gdGV4dA==")
  ∧ decode_base64_text (lit "UGxhaW4gdGV4dA==") = lit "Plain text".
Proof.
  split; [reflexivity|].
  pose proof (proj2 (root_attachment_id_is_not_read sample_codecs text_attachment_part)
                (mkAttachment (lit "att9") (lit "notes.txt") (lit "text/plain") 10)
                (lit "UGxhaW4gdGV4dA==") eq_refl eq_refl eq_refl eq_refl) as H.
  split; [exact (proj1 H)|]. split; [exact (proj2 H)|]. vm_compute. reflexivity.
Defined.

Lemma extract_body_text_only_attachments_witness :
  decode_body_data text_with_file = lit "Plain text"
  ∧ Forall (λ c, skipped c = true) [file_part "application/pdf" "doc1.pdf" "att1" 1024]
  ∧ extract_body_text text_with_file = [].
Proof.
  assert (H : Forall (λ c, skipped c = true)
                [file_part "application/pdf" "doc1.pdf" "att1" 1024]).
  { constructor; [reflexivity|constructor]. }
  split; [vm_compute; reflexivity|]. split; [exact H|].
  apply (extract_body_text_only_attachments text_with_file _ eq_refl
           ltac:(discriminate) H).
Defined.

Lemma decode_rfc2047_filename_plain_witness :
  (∀ i, lit "a=b?.txt" !! i = Some 61 → lit "a=b?.txt" !! S i ≠ Some 63)
  ∧ decode_rfc2047_filename sample_codecs (lit "a=b?.txt") = lit "a=b?.txt".
Proof.
  assert (H : ∀ i, lit "a=b?.txt" !! i = Some 61 → lit "a=b?.txt" !! S i ≠ Some 63).
  { intros i Hi Hn.
    do 8 (destruct i as [|i]; [vm_compute in Hi, Hn; congruence|]).
    vm_compute in Hi. discriminate. }
  split; [exact H|]. apply (decode_rfc2047_filename_plain sample_codecs _ H).
Defined.

Lemma extract_filename_from_headers_same_headers_witness :
  same_headers [disposition_header]
    [header "CONTENT-DISPOSITION" (quoted_param "attachment; filename=" "document.pdf")]
  ∧ extract_filename_from_headers sample_codecs (headed_part [disposition_header])
    = extract_filename_from_headers sample_codecs
        (headed_part [header "CONTENT-DISPOSITION"
                        (quoted_param "attachment; filename=" "document.pdf")]).
Proof.
  assert (H : same_headers [disposition_header]
                [header "CONTENT-DISPOSITION"
                   (quoted_param "attachment; filename=" "document.pdf")]).
  { constructor; [split; vm_compute; reflexivity|constructor]. }
  split; [exact H|].
  apply (extract_filename_from_headers_same_headers sample_codecs
           (headed_part [disposition_header])
           (headed_part [header "CONTENT-DISPOSITION"
                           (quoted_param "attachment; filename=" "document.pdf")])
           _ _ eq_refl eq_refl H).
Defined.

Lemma extract_filename_from_headers_other_header_witness :
  Py.lower (header_name (header "Subject" (lit "filename=x.txt")))
    ≠ lit "content-disposition"
  ∧ extract_filename_from_headers sample_codecs
      (headed_part ([] ++ header "Subject" (lit "filename=x.txt") :: [disposition_header]))
    = extract_filename_from_headers sample_codecs
        (headed_part ([] ++ [disposition_header])).
Proof.
  assert (Hd : Py.lower (header_name (header "Subject" (lit "filename=x.txt")))
               ≠ lit "content-disposition") by (vm_compute; discriminate).
  assert (Ht : Py.lower (header_name (header "Subject" (lit "filename=x.txt")))
               ≠ lit "content-type") by (vm_compute; discriminate).
  split; [exact Hd|].
  apply (extract_filename_from_headers_other_header sample_codecs
           (headed_part ([] ++ header "Subject" (lit "filename=x.txt")
                            :: [disposition_header]))
           (headed_part ([] ++ [disposition_header]))
           [] [disposition_header] (header "Subject" (lit "filename=x.txt"))
           Hd Ht eq_refl eq_refl).
Defined.

Lemma content_disposition_filename_witness :
  extract_filename_from_headers sample_codecs (headed_part [disposition_header])
  = Some (decode_rfc2047_filename sample_codecs (Py.strip (lit "document.pdf")))
  ∧ extract_filename_from_headers sample_codecs
      (headed_part [unquoted_disposition_header])
    = Some (decode_rfc2047_filename sample_codecs (Py.strip (lit "report.pdf")))
  ∧ decode_rfc2047_filename sample_codecs (Py.strip (lit "report.pdf"))
    = lit "report.pdf".
Proof.
  assert (Hprefix : Forall (λ c, Py.char_matches_ic 102 c = false) (lit "attachment; ")).
  { repeat (constructor; [reflexivity|]). constructor. }
  assert (Hq : 34 ∉ lit "document.pdf").
  { intros Hin. repeat (apply elem_of_cons in Hin as [Hin|Hin]; [discriminate|]).
    apply elem_of_nil in Hin. exact Hin. }
  assert (Hs : 59 ∉ lit "report.pdf").
  { intros Hin. repeat (apply elem_of_cons in Hin as [Hin|Hin]; [discriminate|]).
    apply elem_of_nil in Hin. exact Hin. }
  split; [|split].
  - apply (proj1 (content_disposition_filename sample_codecs
                    (headed_part [disposition_header]) [disposition_header]
                    (lit "attachment; ") (lit "filename") (lit "document.pdf") [] false
                    eq_refl Hprefix eq_refl ltac:(discriminate)) Hq).
    vm_compute. reflexivity.
  - apply (proj2 (content_disposition_filename sample_codecs
                    (headed_part [unquoted_disposition_header])
                    [unquoted_disposition_header]
                    (lit "attachment; ") (lit "filename") (lit "report.pdf")
                    (lit "; size=3") false
                    eq_refl Hprefix eq_refl ltac:(discriminate))
             Hs ltac:(discriminate) (or_intror eq_refl)).
    vm_compute. reflexivity.
  - vm_compute. reflexivity.
Defined.


Lemma get_messages_batch_once_witness :
  NoDup (request_id <$> sample_calls)
  ∧ [lit "first message"]
    = omap (answer_for sample_parse sample_calls) [lit "m3"; lit "m1"; lit "m2"].
Proof.
  assert (Hnd : NoDup (request_id <$> sample_calls)).
  { apply (bool_decide_unpack _). vm_compute. exact I. }
  split; [exact Hnd|].
  apply (get_messages_batch_once sample_parse (sample_execute sample_calls)
           [lit "m3"; lit "m1"; lit "m2"] sample_calls [lit "first message"]
           eq_refl Hnd).
  vm_compute. reflexivity.
Defined.

Lemma get_messages_batch_raises_witness :
  get_messages_batch sample_parse
    (sample_execute [mkCall (lit "m1") None (Some (lit "HttpError"))]) [lit "m1"]
  = Raises
  ∧ get_messages_batch sample_parse
      (sample_execute [mkCall (lit "m1") None None]) [lit "m1"]
    = Returns [].
Proof.
  split.
  - apply (proj1 (get_messages_batch_raises sample_parse
                    (sample_execute [mkCall (lit "m1") None (Some (lit "HttpError"))])
                    [lit "m1"] [mkCall (lit "m1") None (Some (lit "HttpError"))]
                    ltac:(discriminate) eq_refl)).
    split.
    + exists (mkCall (lit "m1") None (Some (lit "HttpError"))).
      split; [constructor|reflexivity].
    + intros c Hin. apply list_elem_of_singleton in Hin as ->. reflexivity.
  - apply (proj2 (get_messages_batch_raises sample_parse
                    (sample_execute [mkCall (lit "m1") None None])
                    [lit "m1"] [mkCall (lit "m1") None None]
                    ltac:(discriminate) eq_refl)).
    split; intros c Hin; apply list_elem_of_singleton in Hin as ->; reflexivity.
Defined.

Lemma decode_rfc2047_filename_encoded_word_witness :
  Py.utf8_encode japanese_name = Some japanese_name_bytes
  ∧ encoded_word true (Py.b64encode japanese_name_bytes)
    = lit "=?UTF-8?B?5pel5pys6KqeLnBkZg==?="
  ∧ decode_rfc2047_filename sample_codecs (lit "=?UTF-8?B?5pel5pys6KqeLnBkZg==?=")
    = japanese_name.
Proof.
  split; [reflexivity|]. split; [vm_compute; reflexivity|].
  exact (proj2 (decode_rfc2047_filename_encoded_word sample_codecs true
                  japanese_name japanese_name_bytes) eq_refl).
Defined.

Lemma client_header_dict_lookup_witness :
  is_Some (client_header_dict lower_case_headers)
  ∧ Forall (λ h, header_name h ≠ lit "Subject") lower_case_headers
  ∧ ∀ d, client_header_dict lower_case_headers = Some d →
      header_field "Subject" d = [] ∧ header_field "From" d = lit "a@example.com".
Proof.
  assert (Hall : Forall (λ h, is_Some (h !! lit "name") ∧ is_Some (h !! lit "value"))
                   lower_case_headers).
  { repeat (constructor; [split; vm_compute; eauto|]). constructor. }
  assert (Hnone : Forall (λ h, header_name h ≠ lit "Subject") lower_case_headers).
  { repeat (constructor; [vm_compute; discriminate|]). constructor. }
  split; [apply (proj2 (proj1 (client_header_dict_lookup lower_case_headers)) Hall)|].
  split; [exact Hnone|]. intros d Hd.
  pose proof (proj2 (client_header_dict_lookup lower_case_headers) d Hd) as [Hf Hn].
  split; [apply (Hn "Subject"%string Hnone)|].
  rewrite (Hf "From"%string). vm_compute. reflexivity.
Defined.
